(** * aws-news backend services: image service and ElastiCache listing function

    A shallow embedding of [src/backend/services/image/index.js].  The file
    holds two Lambda handlers: the image service (article image at a
    requested width, read through an S3 bucket) and the ElastiCache
    integration function (paged listings of article ids out of Redis).

    The JavaScript is embedded with the semantics it runs under: property
    reads, [await], [try]/[catch], template literals and the callee-side
    behaviour of [String.prototype.replace], [parseInt] and [Buffer] are
    written out as functions, the AWS SDK, sharp and Redis are a world the
    handlers run against. *)

From Stdlib Require Import ZArith NArith Ascii String List Lia.
From Stdlib Require Import DecimalString DecimalPos DecimalN DecimalZ.
From stdpp Require Import gmap strings list fin_maps.

Open Scope string_scope.

(** ** JavaScript values and completions *)

Module JS.

(** Numbers.  The handlers only compute with integers (indices, lengths,
    widths) and with the [NaN] that [parseInt] returns on a malformed token.
    [Int z] is the double of value [z].  Sums, differences, the decimal
    text and [parseInt] are computed on [z] itself: this is what a double
    does as long as the operands and the result are safe integers, of
    magnitude below 2^53.  Beyond, a double rounds, and prints in exponent
    form from 10^21 on; statements that depend on the value of an index
    carry [isSafeInteger] for it. *)
Inductive num : Type :=
| NaN
| Int (z : Z).

(** [Number.isSafeInteger] *)
Definition isSafeInteger (z : Z) : bool :=
  ((-9007199254740992 <? z) && (z <? 9007199254740992))%Z.

(** A settled promise. *)
Inductive settled (V : Type) : Type :=
| Fulfilled (v : V)
| Rejected (e : V).
Arguments Fulfilled {V} v.
Arguments Rejected {V} e.

(** Values: JSON data of the events and responses, Node [Buffer]s, [Error]
    objects ([name], [message]) and promises ([None] is a pending one). *)
#[warnings="-register-all"] Inductive value : Type :=
| VUndefined
| VNull
| VBool (b : bool)
| VNum (n : num)
| VStr (s : string)
| VBuffer (bytes : list Byte.byte)
| VObject (props : list (string * value))
| VError (name message : string)
| VPromise (state : option (settled value)).

(** How a statement list ends: normally, by a [throw], or never (an
    [await] on a promise that does not settle). *)
Inductive completion (A : Type) : Type :=
| Normal (a : A)
| Throw (e : value)
| Hang.
Arguments Normal {A} a.
Arguments Throw {A} e.
Arguments Hang {A}.

(** Effectful code threads a state [S] and keeps it when it throws. *)
Definition M (S A : Type) : Type := S -> completion A * S.

Definition ret {S A} (a : A) : M S A := fun st => (Normal a, st).

Definition lift {S A} (c : completion A) : M S A := fun st => (c, st).

Definition bind {S A B} (m : M S A) (k : A -> M S B) : M S B :=
  fun st =>
    match m st with
    | (Normal a, st') => k a st'
    | (Throw e, st') => (Throw e, st')
    | (Hang, st') => (Hang, st')
    end.

Declare Scope js_scope.
Delimit Scope js_scope with js.
Notation "'let!' x ':=' m 'in' k" := (bind m (fun x => k))
  (at level 10, x name, m at level 100, k at level 200) : js_scope.

(** [try { m } catch (e) { h e }] *)
Definition try_catch {S A} (m : M S A) (h : value -> M S A) : M S A :=
  fun st =>
    match m st with
    | (Throw e, st') => h e st'
    | r => r
    end.

Definition TypeError (message : string) : value := VError "TypeError" message.
Definition ReferenceError (message : string) : value := VError "ReferenceError" message.
Definition RangeError (message : string) : value := VError "RangeError" message.

(** *** Strings

    A string is a sequence of code units below 256. *)

Definition is_digit (c : ascii) : bool :=
  let n := N_of_ascii c in ((48 <=? n) && (n <=? 57))%N.

(** [Number.prototype.toString] on a safe integer: its decimal digits. *)
Definition string_of_Z (z : Z) : string := NilZero.string_of_int (Z.to_int z).

Definition string_of_num (n : num) : string :=
  match n with
  | NaN => "NaN"
  | Int z => string_of_Z z
  end.

(** A Buffer read as text, for ASCII content. *)
Definition string_of_bytes (bs : list Byte.byte) : string :=
  string_of_list_ascii (map ascii_of_byte bs).

(** [ToString], as a template literal applies it to [${v}]. *)
Definition ToString (v : value) : string :=
  match v with
  | VUndefined => "undefined"
  | VNull => "null"
  | VBool true => "true"
  | VBool false => "false"
  | VNum n => string_of_num n
  | VStr s => s
  | VBuffer bs => string_of_bytes bs
  | VObject _ => "[object Object]"
  | VError name message => name +:+ ": " +:+ message
  | VPromise _ => "[object Promise]"
  end.

(** [ToBoolean]. *)
Definition truthy (v : value) : bool :=
  match v with
  | VUndefined | VNull => false
  | VBool b => b
  | VNum NaN => false
  | VNum (Int z) => negb (z =? 0)%Z
  | VStr s => negb (String.eqb s "")
  | _ => true
  end.

(** *** Property reads, [await] *)

Fixpoint assoc (k : string) (props : list (string * value)) : value :=
  match props with
  | [] => VUndefined
  | (k', v) :: rest => if String.eqb k k' then v else assoc k rest
  end.

(** [v.k] for a data property [k].  Reading off [undefined] or [null]
    throws; a promise has no data properties. *)
Definition get_prop (v : value) (k : string) : completion value :=
  match v with
  | VUndefined =>
      Throw (TypeError ("Cannot read properties of undefined (reading '" +:+ k +:+ "')"))
  | VNull =>
      Throw (TypeError ("Cannot read properties of null (reading '" +:+ k +:+ "')"))
  | VObject props => Normal (assoc k props)
  | VError name message =>
      Normal (if String.eqb k "name" then VStr name
              else if String.eqb k "message" then VStr message
              else VUndefined)
  | VStr s =>
      Normal (if String.eqb k "length"
              then VNum (Int (Z.of_nat (String.length s))) else VUndefined)
  | VBuffer bs =>
      Normal (if String.eqb k "length"
              then VNum (Int (Z.of_nat (List.length bs))) else VUndefined)
  | VBool _ | VNum _ | VPromise _ => Normal VUndefined
  end.

(** An identifier that no declaration of the module binds and that is not
    a global of Node: reading it throws. *)
Definition unbound (name : string) : completion value :=
  Throw (ReferenceError (name +:+ " is not defined")).

(** [v instanceof c].  The right-hand side must be callable; no value of
    this embedding is a class. *)
Definition instanceof (v c : value) : completion bool :=
  Throw (TypeError "Right-hand side of 'instanceof' is not callable").

(** [await v]: a settled promise yields its outcome, a pending one never
    resumes, any other value is passed through. *)
Definition await (v : value) : completion value :=
  match v with
  | VPromise (Some (Fulfilled x)) => Normal x
  | VPromise (Some (Rejected e)) => Throw e
  | VPromise None => Hang
  | _ => Normal v
  end.

End JS.

(** ** Node and ECMAScript library functions the handlers call *)

Module Base64.

Definition alphabet : string :=
  "ABCDEFGHIJKLMNOPQRSTUVWXYZabcdefghijklmnopqrstuvwxyz0123456789+/".

Definition char_of_sextet (n : N) : ascii :=
  match String.get (N.to_nat n) alphabet with
  | Some c => c
  | None => "A"%char
  end.

(** Node reads both the standard and the URL-safe alphabet. *)
Definition sextet_of_char (c : ascii) : option N :=
  let n := N_of_ascii c in
  if ((65 <=? n) && (n <=? 90))%N then Some (n - 65)%N
  else if ((97 <=? n) && (n <=? 122))%N then Some (n - 71)%N
  else if ((48 <=? n) && (n <=? 57))%N then Some (n + 4)%N
  else if ((n =? 43) || (n =? 45))%N then Some 62%N
  else if ((n =? 47) || (n =? 95))%N then Some 63%N
  else None.

Definition byte_of_N (n : N) : Byte.byte :=
  match Byte.of_N n with
  | Some b => b
  | None => Byte.x00
  end.

(** [buf.toString("base64")] *)
Fixpoint encode (bs : list Byte.byte) : string :=
  match bs with
  | [] => ""
  | [a] =>
      let x := Byte.to_N a in
      String (char_of_sextet (x / 4))
        (String (char_of_sextet ((x mod 4) * 16)) "==")
  | [a; b] =>
      let x := Byte.to_N a in
      let y := Byte.to_N b in
      String (char_of_sextet (x / 4))
        (String (char_of_sextet ((x mod 4) * 16 + y / 16))
           (String (char_of_sextet ((y mod 16) * 4)) "="))
  | a :: b :: c :: rest =>
      let x := Byte.to_N a in
      let y := Byte.to_N b in
      let z := Byte.to_N c in
      String (char_of_sextet (x / 4))
        (String (char_of_sextet ((x mod 4) * 16 + y / 16))
           (String (char_of_sextet ((y mod 16) * 4 + z / 64))
              (String (char_of_sextet (z mod 64)) (encode rest))))
  end%N.

(** The decoder skips characters outside the alphabet and stops at the
    first padding character. *)
Fixpoint sextets (s : string) : list N :=
  match s with
  | EmptyString => []
  | String c s' =>
      if Ascii.eqb c "=" then []
      else match sextet_of_char c with
           | Some n => n :: sextets s'
           | None => sextets s'
           end
  end.

Fixpoint bytes_of_sextets (l : list N) : list Byte.byte :=
  match l with
  | a :: b :: c :: d :: rest =>
      byte_of_N (a * 4 + b / 16)
      :: byte_of_N ((b mod 16) * 16 + c / 4)
      :: byte_of_N ((c mod 4) * 64 + d)
      :: bytes_of_sextets rest
  | [a; b; c] =>
      [byte_of_N (a * 4 + b / 16); byte_of_N ((b mod 16) * 16 + c / 4)]
  | [a; b] => [byte_of_N (a * 4 + b / 16)]
  | _ => []
  end%N.

(** [Buffer.from(s, "base64")] on a string. *)
Definition decode (s : string) : list Byte.byte := bytes_of_sextets (sextets s).

End Base64.

Module Node.
Import JS.

(** [Buffer.from(s)]: the UTF-8 bytes of a string of code units below 256. *)
Fixpoint utf8 (s : string) : list Byte.byte :=
  match s with
  | EmptyString => []
  | String c s' =>
      let n := N_of_ascii c in
      if (n <? 128)%N then byte_of_ascii c :: utf8 s'
      else Base64.byte_of_N (192 + n / 64) :: Base64.byte_of_N (128 + n mod 64) :: utf8 s'
  end.

(** [Buffer.from(v, "base64")]: a string is decoded, a Buffer is copied,
    [undefined], [null] and the other types are refused. *)
Definition Buffer_from_base64 (v : value) : completion (list Byte.byte) :=
  match v with
  | VStr s => Normal (Base64.decode s)
  | VBuffer bs => Normal bs
  | _ =>
      Throw (TypeError
        ("The first argument must be of type string or an instance of Buffer, ArrayBuffer, or Array or an Array-like Object. Received "
         +:+ ToString v))
  end.

(** [buf.toString("ascii")]: every byte with its high bit cleared. *)
Definition toString_ascii (bs : list Byte.byte) : string :=
  string_of_list_ascii
    (map (fun b => ascii_of_N (N.land (Byte.to_N b) 127)) bs).

(** [v.toString("base64")], the method call of the response body: only a
    Buffer takes the argument as an encoding. *)
Definition toString_base64 (v : value) : completion string :=
  match v with
  | VUndefined =>
      Throw (TypeError "Cannot read properties of undefined (reading 'toString')")
  | VNull =>
      Throw (TypeError "Cannot read properties of null (reading 'toString')")
  | VBuffer bs => Normal (Base64.encode bs)
  | VNum _ => Throw (RangeError "toString() radix must be between 2 and 36")
  | _ => Normal (ToString v)
  end.

(** [s.split(sep)] for a one-character separator. *)
Fixpoint split (sep : ascii) (s : string) : list string :=
  match s with
  | EmptyString => [""]
  | String c s' =>
      if Ascii.eqb c sep then "" :: split sep s'
      else match split sep s' with
           | x :: xs => String c x :: xs
           | [] => [String c ""]
           end
  end.

(** [a[i]] on the array a [split] returns. *)
Definition index (l : list string) (i : nat) : value :=
  match nth_error l i with
  | Some s => VStr s
  | None => VUndefined
  end.

Definition is_space (c : ascii) : bool :=
  let n := N_of_ascii c in
  (((9 <=? n) && (n <=? 13)) || (n =? 32) || (n =? 160))%N.

Fixpoint trim_start (s : string) : string :=
  match s with
  | String c s' => if is_space c then trim_start s' else s
  | EmptyString => s
  end.

Definition digit_value (c : ascii) : option N :=
  let n := N_of_ascii c in
  if ((48 <=? n) && (n <=? 57))%N then Some (n - 48)%N
  else if ((97 <=? n) && (n <=? 122))%N then Some (n - 87)%N
  else if ((65 <=? n) && (n <=? 90))%N then Some (n - 55)%N
  else None.

(** The longest prefix of digits of the radix, read left to right; [None]
    while no digit has been read. *)
Fixpoint parse_digits (radix : N) (acc : option N) (s : string) : option N :=
  match s with
  | EmptyString => acc
  | String c s' =>
      match digit_value c with
      | Some d =>
          if (d <? radix)%N
          then parse_digits radix
                 (Some (match acc with Some a => a * radix + d | None => d end)%N) s'
          else acc
      | None => acc
      end
  end.

(** An optional sign: whether it is [-], and the rest. *)
Definition sign_prefix (s : string) : bool * string :=
  match s with
  | String "-" r => (true, r)
  | String "+" r => (false, r)
  | _ => (false, s)
  end.

(** The radix a [0x] or [0X] prefix selects, and the rest. *)
Definition radix_prefix (s : string) : N * string :=
  match s with
  | String "0" (String "x" r) => (16%N, r)
  | String "0" (String "X" r) => (16%N, r)
  | _ => (10%N, s)
  end.

(** [parseInt(v)] with no radix: leading white space, a sign, a [0x]
    prefix, then digits; [NaN] when there is none.  The result is the
    value of the digits, which is the double [parseInt] returns when that
    value is a safe integer. *)
Definition parseInt (v : value) : num :=
  let '(negative, s2) := sign_prefix (trim_start (ToString v)) in
  let '(radix, s3) := radix_prefix s2 in
  match parse_digits radix None s3 with
  | None => NaN
  | Some n => Int (if negative then - Z.of_N n else Z.of_N n)
  end.

(** [s.toLowerCase()] on ASCII letters. *)
Definition lower (c : ascii) : ascii :=
  let n := N_of_ascii c in
  if ((65 <=? n) && (n <=? 90))%N then ascii_of_N (n + 32) else c.

Fixpoint toLowerCase (s : string) : string :=
  match s with
  | EmptyString => EmptyString
  | String c s' => String (lower c) (toLowerCase s')
  end.

(** Every character of [s] passes [p]. *)
Fixpoint all_chars (p : ascii -> bool) (s : string) : bool :=
  match s with
  | EmptyString => true
  | String c s' => p c && all_chars p s'
  end.

Definition is_ascii (c : ascii) : bool := (N_of_ascii c <? 128)%N.
Definition not_dollar (c : ascii) : bool := negb (Ascii.eqb c "$").
Definition not_colon (c : ascii) : bool := negb (Ascii.eqb c ":").

(** [GetSubstitution] for a pattern without capture groups: [$$], [$&],
    [$`] and [$'] are expanded, any other [$] is literal. *)
Fixpoint get_substitution (matched before after template : string) : string :=
  match template with
  | EmptyString => ""
  | String a rest =>
      if Ascii.eqb a "$" then
        match rest with
        | EmptyString => "$"
        | String c rest' =>
            if Ascii.eqb c "$" then String "$" (get_substitution matched before after rest')
            else if Ascii.eqb c "&" then matched +:+ get_substitution matched before after rest'
            else if Ascii.eqb c "`" then before +:+ get_substitution matched before after rest'
            else if Ascii.eqb c "'" then after +:+ get_substitution matched before after rest'
            else String "$" (String c (get_substitution matched before after rest'))
        end
      else String a (get_substitution matched before after rest)
  end.

(** The match of [/\.jpg$/]: the text before a final [.jpg]. *)
Fixpoint match_jpg_end (s : string) : option string :=
  match s with
  | EmptyString => None
  | String c s' =>
      if String.eqb s ".jpg" then Some ""
      else option_map (String c) (match_jpg_end s')
  end.

(** [s.replace(/\.jpg$/, template)] *)
Definition replace_jpg_end (s template : string) : string :=
  match match_jpg_end s with
  | Some before => before +:+ get_substitution ".jpg" before "" template
  | None => s
  end.

End Node.

(** ** Image service (lines 1-137) *)

Module Image.
Import JS Node.
#[local] Open Scope js_scope.

(** An object of the content bucket. *)
Record S3Object : Type := mkS3Object {
  Body : list Byte.byte;
  ContentType : string;
  Metadata : list (string * string)
}.

(** Calls that leave the function, in the order they are made. *)
Inductive call : Type :=
| DdbGet (id : value)
| S3GetObject (key : value)
| S3PutObject (key body : value)
| SharpResize (buffer width : value).

(** What the handler runs against: [process.env], the outcome of the
    DynamoDB read for an article id, the faults of the object store, and
    the outcome of sharp on a source and a width ([None]: the promise
    stays pending). *)
Record env : Type := mkEnv {
  DEFAULT_IMAGE_WIDTH : string;
  CACHE_CONTROL_VALUE : string;
  ddb_get : value -> settled value;
  s3_get_fault : string -> option value;
  s3_put_fault : string -> option value;
  sharp : value -> value -> option (settled value)
}.

(** The bucket [CONTENT_BUCKET], the calls made so far and the two
    module-level client handles ([false] is [null]). *)
Record state : Type := mkState {
  bucket : gmap string S3Object;
  calls : list call;
  ddbclient : bool;
  s3client : bool
}.

Definition log (c : call) (st : state) : state :=
  mkState (bucket st) (calls st ++ [c]) (ddbclient st) (s3client st).

Definition NoSuchKey : value :=
  VError "NoSuchKey" "The specified key does not exist.".

Definition InvalidParameterType (param : string) : value :=
  VError "InvalidParameterType" ("Expected params." +:+ param +:+ " to be a string").

Definition MissingRequiredParameter (param : string) : value :=
  VError "MissingRequiredParameter" ("Missing required key '" +:+ param +:+ "' in params").

(** The response of [getObject], with the fields the service stores:
    user metadata travels as [x-amz-meta-*] headers and comes back under
    lower-cased keys. *)
Definition response_of_object (o : S3Object) : value :=
  VObject [("Body", VBuffer (Body o));
           ("ContentType", VStr (ContentType o));
           ("Metadata",
            VObject (map (fun kv => (toLowerCase (fst kv), VStr (snd kv))) (Metadata o)))].

Section WithEnv.
Variable E : env.

(** [s3client.getObject({ Bucket, Key }).promise()] *)
Definition s3_getObject (b : gmap string S3Object) (key : value) : settled value :=
  match key with
  | VStr k =>
      match s3_get_fault E k with
      | Some e => Rejected e
      | None =>
          match b !! k with
          | Some o => Fulfilled (response_of_object o)
          | None => Rejected NoSuchKey
          end
      end
  | VUndefined | VNull => Rejected (MissingRequiredParameter "Key")
  | _ => Rejected (InvalidParameterType "Key")
  end.

Definition body_bytes (image : value) : option (list Byte.byte) :=
  match image with
  | VBuffer bs => Some bs
  | VStr s => Some (utf8 s)
  | VUndefined | VNull => Some []
  | _ => None
  end.

Fixpoint metadata_strings (props : list (string * value)) : option (list (string * string)) :=
  match props with
  | [] => Some []
  | (k, VStr s) :: rest => option_map (cons (k, s)) (metadata_strings rest)
  | _ => None
  end.

(** [s3client.putObject({ Bucket, Key, Body, ContentType, Metadata }).promise()]:
    the new bucket and the outcome. *)
Definition s3_putObject (b : gmap string S3Object) (key body : value)
    (contentType : string) (metadata : list (string * value))
  : gmap string S3Object * settled value :=
  match key with
  | VStr k =>
      match body_bytes body, metadata_strings metadata with
      | Some bs, Some md =>
          match s3_put_fault E k with
          | Some e => (b, Rejected e)
          | None => (<[k := mkS3Object bs contentType md]> b, Fulfilled (VObject []))
          end
      | None, _ => (b, Rejected (InvalidParameterType "Body"))
      | _, None => (b, Rejected (InvalidParameterType "Metadata"))
      end
  | VUndefined | VNull => (b, Rejected (MissingRequiredParameter "Key"))
  | _ => (b, Rejected (InvalidParameterType "Key"))
  end.

Definition null_client (method : string) : value :=
  VPromise (Some (Rejected
    (TypeError ("Cannot read properties of null (reading '" +:+ method +:+ "')")))).

(** lines 25-29: [processImage(buffer, width)] *)
Definition processImage (buffer width : value) : M state value :=
  fun st => (Normal (VPromise (sharp E buffer width)), log (SharpResize buffer width) st).

(** lines 36-44: [storeImage(image, name, metadata)] *)
Definition storeImage (image name : value) (metadata : list (string * value))
  : M state value :=
  fun st =>
    if s3client st then
      let '(b, o) := s3_putObject (bucket st) name image "image/jpeg" metadata in
      (Normal (VPromise (Some o)),
       mkState b (calls st ++ [S3PutObject name image]) (ddbclient st) (s3client st))
    else (Normal (null_client "putObject"), st).

(** lines 66-71: [getImage(imageKey)].  An [async function]: the caller
    receives a promise of the SDK response, never the response. *)
Definition getImage (imageKey : value) : M state value :=
  fun st =>
    if s3client st then
      (Normal (VPromise (Some (s3_getObject (bucket st) imageKey))),
       log (S3GetObject imageKey) st)
    else (Normal (null_client "getObject"), st).

(** lines 77-91: [getArticleMetadata(articleId)].  The DocumentClient is
    created on first use. *)
Definition getArticleMetadata (articleId : value) : M state value :=
  fun st =>
    let st1 := mkState (bucket st) (calls st) true (s3client st) in
    (Normal (VPromise (Some (ddb_get E articleId))), log (DdbGet articleId) st1).

(** line 54, the operand of the first [await]: [getImage(imageBaseKey).Body] *)
Definition resizeAndStoreImage_operand (imageBaseKey : value) : M state value :=
  let! p := getImage imageBaseKey in
  lift (get_prop p "Body").

(** lines 54-59 from that [await] on. *)
Definition resizeAndStoreImage_resume (operand imageBaseKey newImageKey articleId
    desiredWidth : value) : M state value :=
  let! buffer := lift (await operand) in
  let! p := processImage buffer desiredWidth in
  let! image := lift (await p) in
  let! q := storeImage image newImageKey
         [("articleId", articleId); ("imageBaseKey", imageBaseKey)] in
  let! stored := lift (await q) in
  ret image.

(** lines 53-60: [resizeAndStoreImage], as a caller that awaits it sees it.
    The width parameter defaults when the argument is [undefined]. *)
Definition resizeAndStoreImage (imageBaseKey newImageKey articleId desiredWidth : value)
  : M state value :=
  let desiredWidth :=
    match desiredWidth with
    | VUndefined => VStr (DEFAULT_IMAGE_WIDTH E)
    | w => w
    end in
  let! operand := resizeAndStoreImage_operand imageBaseKey in
  resizeAndStoreImage_resume operand imageBaseKey newImageKey articleId desiredWidth.

(** line 106, the key of the sized image:
    [baseKey.replace(/\.jpg$/, `-${size}.jpg`)] on a string. *)
Definition derive (baseKey : string) (size : value) : string :=
  replace_jpg_end baseKey ("-" +:+ ToString size +:+ ".jpg").

(** line 106 on whatever the metadata read resolved to: only a string has
    a [replace] method. *)
Definition derive_step (imageBaseKey size : value) : completion value :=
  match imageBaseKey with
  | VStr baseKey => Normal (VStr (derive baseKey size))
  | VUndefined =>
      Throw (TypeError "Cannot read properties of undefined (reading 'replace')")
  | VNull =>
      Throw (TypeError "Cannot read properties of null (reading 'replace')")
  | _ => Throw (TypeError "imageBaseKey.replace is not a function")
  end.

Definition not_found_response : value :=
  VObject [("isBase64Encoded", VBool false);
           ("statusCode", VNum (Int 404));
           ("body", VObject [("error", VStr "Not Found")])].

Definition image_response (body : string) : value :=
  VObject [("isBase64Encoded", VBool true);
           ("statusCode", VNum (Int 200));
           ("headers", VObject [("Content-Type", VStr "image/jpeg");
                                ("Cache-Control", VStr (CACHE_CONTROL_VALUE E))]);
           ("body", VStr body)].

(** The call on line 117 is not awaited: [resizeAndStoreImage] runs up to
    its first [await] and hands back its promise, pending unless that
    prefix threw. *)
Definition resizeAndStoreImage_unawaited (imageBaseKey newImageKey articleId
    desiredWidth : value) : M state value :=
  fun st =>
    match resizeAndStoreImage_operand imageBaseKey st with
    | (Throw e, st') => (Normal (VPromise (Some (Rejected e))), st')
    | (_, st') => (Normal (VPromise None), st')
    end.

(** line 115: the file never declares or imports [NoSuchKeyError]. *)
Definition NoSuchKeyError : completion value := unbound "NoSuchKeyError".

(** lines 114-126, the [catch] clause: [inr] is the new value of [buffer],
    [inl] the response of the early [return].  The test of line 115 reads
    [NoSuchKeyError] first. *)
Definition handler_catch (imageBaseKey imageKey articleId size : value) (e : value)
  : M state (value + value) :=
  let! class := lift NoSuchKeyError in
  let! missing := lift (instanceof e class) in
  if (missing : bool)
  then (let! p := resizeAndStoreImage_unawaited imageBaseKey imageKey articleId size in
        ret (inr p))
  else ret (inl not_found_response).

(** lines 112-113, the [try] block. *)
Definition handler_try (imageKey : value) : M state (value + value) :=
  let! p := getImage imageKey in
  let! operand := lift (get_prop p "Body") in
  let! buffer := lift (await operand) in
  ret (inr buffer).

(** lines 128-136 *)
Definition handler_respond (buffer : value) : completion value :=
  match toString_base64 buffer with
  | Normal body => Normal (image_response body)
  | Throw e => Throw e
  | Hang => Hang
  end.

(** line 108 *)
Definition init_s3client : M state unit :=
  fun st => (Normal tt, mkState (bucket st) (calls st) (ddbclient st) true).

(** lines 98-137: [exports.handler] *)
Definition handler (event : value) : M state value :=
  let! pathParameters := lift (get_prop event "pathParameters") in
  let! articleId := lift (get_prop pathParameters "id") in
  let! queryStringParameters := lift (get_prop event "queryStringParameters") in
  let! size := lift (get_prop queryStringParameters "size") in
  let! p := getArticleMetadata articleId in
  let! imageBaseKey := lift (await p) in
  let! imageKey := lift (derive_step imageBaseKey size) in
  let! client := init_s3client in
  let! r := try_catch (handler_try imageKey)
         (handler_catch imageBaseKey imageKey articleId size) in
  match r with
  | inl response => ret response
  | inr buffer => lift (handler_respond buffer)
  end.

End WithEnv.

(** The API Gateway proxy event of [GET /articles/{id}/image?size=...]. *)
Definition request (articleId size : value) : value :=
  VObject [("pathParameters", VObject [("id", articleId)]);
           ("queryStringParameters", VObject [("size", size)])].

(** The calls that read: the metadata read and the read of an object. *)
Definition is_read (c : call) : bool :=
  match c with
  | DdbGet _ | S3GetObject _ => true
  | _ => false
  end.

(** line 53, the default of the last parameter of [resizeAndStoreImage]:
    [desiredWidth=DEFAULT_IMAGE_WIDTH]. *)
Definition width_or_default (E : env) (desiredWidth : value) : value :=
  match desiredWidth with
  | VUndefined => VStr (DEFAULT_IMAGE_WIDTH E)
  | w => w
  end.

(** The variant space: a positive pixel width, as the query string
    carries it. *)
Definition size_of_width (w : positive) : value := VStr (string_of_Z (Z.pos w)).

(** [response.statusCode] *)
Definition statusCode (response : value) : value :=
  match response with
  | VObject props => assoc "statusCode" props
  | _ => VUndefined
  end.

(** The error every run of the handler ends with (line 135). *)
Definition undefined_toString : value :=
  TypeError "Cannot read properties of undefined (reading 'toString')".

(** *** A concrete deployment

    Article 123 has the base image [articles/123.jpg]; the request asks
    for it 300 pixels wide. *)

Definition source_bytes : list Byte.byte :=
  [Byte.xff; Byte.xd8; Byte.xff; Byte.xe0; Byte.x00; Byte.x10].

Definition resized_bytes : list Byte.byte :=
  [Byte.xff; Byte.xd8; Byte.xff; Byte.xe0; Byte.x00; Byte.x08].

Definition base_image : S3Object := mkS3Object source_bytes "image/jpeg" [].

Definition sized_image : S3Object :=
  mkS3Object resized_bytes "image/jpeg"
    [("articleId", "123"); ("imageBaseKey", "articles/123.jpg")].

(** The bucket before the first request for a size, and once the sized
    image is cached. *)
Definition base_only : gmap string S3Object := {[ "articles/123.jpg" := base_image ]}.

Definition with_sized : gmap string S3Object :=
  <[ "articles/123-300.jpg" := sized_image ]> base_only.

(** A fresh container: no call made, both client handles [null]. *)
Definition cold (b : gmap string S3Object) : state := mkState b [] false false.

(** A container that has served a request. *)
Definition warm (b : gmap string S3Object) : state := mkState b [] true true.

Definition unavailable : value :=
  VError "ServiceUnavailable" "Service is unable to handle request.".

(** [typeof v], for the values a width can be. *)
Definition typeof (v : value) : string :=
  match v with
  | VUndefined => "undefined"
  | VBool _ => "boolean"
  | VNum _ => "number"
  | VStr _ => "string"
  | _ => "object"
  end.

(** sharp resizes a Buffer to a width that is a positive integer, a
    number; it refuses any other width, a string of digits included, and
    it refuses an input that is not image data. *)
Definition resize_buffers (buffer width : value) : option (settled value) :=
  match buffer with
  | VBuffer _ =>
      match width with
      | VNum (Int w) =>
          if (0 <? w)%Z then Some (Fulfilled (VBuffer resized_bytes))
          else Some (Rejected (VError "Error"
                 ("Expected positive integer for width but received " +:+ ToString width
                  +:+ " of type number")))
      | _ =>
          Some (Rejected (VError "Error"
                 ("Expected positive integer for width but received " +:+ ToString width
                  +:+ " of type " +:+ typeof width)))
      end
  | _ => Some (Rejected (VError "Error" "Invalid input"))
  end.

(** The metadata read resolves to the base key. *)
Definition base_key_of (id : value) : settled value :=
  match id with
  | VStr "123" => Fulfilled (VStr "articles/123.jpg")
  | _ => Fulfilled VUndefined
  end.

(** The metadata read resolves to the response of [DocumentClient.get]. *)
Definition item_of (id : value) : settled value :=
  match id with
  | VStr "123" => Fulfilled (VObject [("Item", VObject [("image", VStr "articles/123.jpg")])])
  | _ => Fulfilled (VObject [])
  end.

Definition healthy : env :=
  mkEnv "600" "max-age=86400" base_key_of (fun _ => None) (fun _ => None)
    resize_buffers.

Definition document_client : env :=
  mkEnv "600" "max-age=86400" item_of (fun _ => None) (fun _ => None)
    resize_buffers.


(** The bucket refuses reads. *)
Definition read_outage : env :=
  mkEnv "600" "max-age=86400" base_key_of (fun _ => Some unavailable) (fun _ => None)
    resize_buffers.

(** The articles table cannot be reached. *)
Definition lookup_outage : env :=
  mkEnv "600" "max-age=86400" (fun _ => Rejected unavailable) (fun _ => None)
    (fun _ => None) resize_buffers.

Definition image_request : value := request (VStr "123") (VStr "300").


End Image.

(** ** ElastiCache integration function (lines 138-299) *)

Module Listing.
Import JS Node.
#[local] Open Scope Z_scope.

(** A field of [event.args] as the GraphQL schema types it ([limit: Int],
    [nextToken: String]): left out, [null], or given. *)
Inductive arg (A : Type) : Type :=
| Absent
| Null
| Given (a : A).
Arguments Absent {A}.
Arguments Null {A}.
Arguments Given {A} a.

Record event : Type := mkEvent {
  action : string;
  limit : arg Z;
  nextToken : arg string
}.

(** The Redis cluster: the list at [LATEST_CONTENT_KEY] from its head, the
    sorted set at [POPULAR_CONTENT_KEY] from the highest rank down with the
    scores, and the error [exec()] rejects with when the cluster cannot be
    reached. *)
Record redis : Type := mkRedis {
  latest : list string;
  popular : list (string * Z);
  exec_fault : option value
}.

(** One [[err, result]] pair of [pipeline.exec()]; [err] is the Error
    object of a command that failed. *)
Inductive reply (A : Type) : Type :=
| Ok (result : A)
| Err (err : value).
Arguments Ok {A} result.
Arguments Err {A} err.

Inductive response : Type :=
| ArticleList (ids : list string) (nextToken : string)
| Failure (error : value)
| NullResponse.

Definition value_of_arg (a : arg string) : value :=
  match a with
  | Absent => VUndefined
  | Null => VNull
  | Given s => VStr s
  end.

(** [ToNumber] of the limit after its default: [null] counts as 0. *)
Definition number_of_limit (l : arg Z) : num :=
  match l with
  | Given z => Int z
  | Null | Absent => Int 0
  end.

(** [a + b] and [a - b]: [NaN] as soon as one side is; on integers the
    sum and the difference themselves, which is the double the code
    computes while they stay safe integers (see [num]). *)
Definition add (a b : num) : num :=
  match a, b with
  | Int x, Int y => Int (x + y)
  | _, _ => NaN
  end.

Definition sub (a b : num) : num :=
  match a, b with
  | Int x, Int y => Int (x - y)
  | _, _ => NaN
  end.

(** [a > b]: false as soon as one side is [NaN]. *)
Definition gt (a b : num) : bool :=
  match a, b with
  | Int x, Int y => (y <? x)%Z
  | _, _ => false
  end.

(** The index range of [LRANGE] and [ZREVRANGE]: both ends inclusive, a
    negative index counts from the tail, the range is clipped to the
    sequence. *)
Definition range {A} (l : list A) (start stop : Z) : list A :=
  let len := Z.of_nat (List.length l) in
  let start := if (start <? 0)%Z then len + start else start in
  let stop := if (stop <? 0)%Z then len + stop else stop in
  let start := if (start <? 0)%Z then 0 else start in
  if ((stop <? start) || (len <=? start))%Z then []
  else
    let stop := if (len <=? stop)%Z then len - 1 else stop in
    firstn (Z.to_nat (stop - start + 1)) (skipn (Z.to_nat start) l).

Definition not_an_integer : value :=
  VError "ReplyError" "ERR value is not an integer or out of range".

(** An index travels as the text of the number.  Redis reads it as a
    64-bit integer: [NaN] is refused, and so is a number of magnitude 2^63
    or more, whose text is out of range or, from 10^21 on, in exponent
    form. *)
Definition redis_integer (n : num) : option Z :=
  match n with
  | Int z =>
      if ((-9223372036854775808 <? z) && (z <? 9223372036854775808))%Z
      then Some z else None
  | NaN => None
  end.

(** A range command: an index that Redis does not read as an integer is
    an error reply. *)
Definition range_reply {A} (l : list A) (start stop : num) : reply (list A) :=
  match redis_integer start, redis_integer stop with
  | Some s, Some e => Ok (range l s e)
  | _, _ => Err not_an_integer
  end.

Definition lrange (R : redis) (start stop : num) : reply (list string) :=
  range_reply (latest R) start stop.

Definition llen (R : redis) : reply Z := Ok (Z.of_nat (List.length (latest R))).

Definition zrevrange (R : redis) (start stop : num) : reply (list string) :=
  range_reply (map fst (popular R)) start stop.

(** [ZCOUNT key 0 +inf] *)
Definition zcount_from_0 (R : redis) : reply Z :=
  Ok (Z.of_nat (List.length (filter (fun m => (0 <=? snd m)%Z) (popular R)))).

(** [await pipeline.exec()] *)
Definition exec {A B} (R : redis) (r1 : reply A) (r2 : reply B) : completion (reply A * reply B) :=
  match exec_fault R with
  | Some e => Throw e
  | None => Normal (r1, r2)
  end.

(** lines 242-244 *)
Definition _encodeNextToken (type : string) (nextIndex : num) : string :=
  Base64.encode (utf8 (type +:+ ":" +:+ string_of_num nextIndex)).

(** lines 232-235 *)
Definition _decodeNextToken (nextToken : value) : completion num :=
  match Buffer_from_base64 nextToken with
  | Normal bytes =>
      let str := toString_ascii bytes in
      Normal (parseInt (index (split ":" str) 1))
  | Throw e => Throw e
  | Hang => Hang
  end.

(** lines 163-182 *)
Definition _returnArticleList (result : reply (list string) * reply Z) (end_ : num)
  : response :=
  match result with
  | (Ok articleIds, Ok length) =>
      let nextIndex : option num :=
        if gt (Int (Z.min length 50)) end_ then Some (add end_ (Int 1)) else None in
      ArticleList articleIds
        match nextIndex with
        | Some n => if truthy (VNum n) then _encodeNextToken "Article" n else ""
        | None => ""
        end
  | _ => Failure (VStr "An error has occurred retrieving articles")
  end.

(** The [catch] clauses of lines 200-203 and 222-225: [{ error: error.message }] *)
Definition error_response (error : value) : completion response :=
  match get_prop error "message" with
  | Normal m => Normal (Failure m)
  | Throw e => Throw e
  | Hang => Hang
  end.

(** lines 189-204 *)
Definition getLatestArticles (R : redis) (start limit : num) : completion response :=
  let end_ := sub (add start limit) (Int 1) in
  match exec R (lrange R start end_) (llen R) with
  | Normal result => Normal (_returnArticleList result end_)
  | Throw error => error_response error
  | Hang => Hang
  end.

(** lines 211-226 *)
Definition getPopularArticles (R : redis) (start limit : num) : completion response :=
  let end_ := sub (add start limit) (Int 1) in
  match exec R (zrevrange R start end_) (zcount_from_0 R) with
  | Normal result => Normal (_returnArticleList result end_)
  | Throw error => error_response error
  | Hang => Hang
  end.

(** line 285: [nextToken !== "" ? _decodeNextToken(nextToken) : 0] *)
Definition start_of (nextToken : value) : completion num :=
  match nextToken with
  | VStr "" => Normal (Int 0)
  | _ => _decodeNextToken nextToken
  end.

(** lines 282-299: [exports.handler] *)
Definition handler (R : redis) (ev : event) : completion response :=
  let limit :=
    match limit ev with
    | Absent => Int 10
    | l => number_of_limit l
    end in
  match start_of (value_of_arg (nextToken ev)) with
  | Normal start =>
      if String.eqb (action ev) "latestArticles" then getLatestArticles R start limit
      else if String.eqb (action ev) "popularArticles" then getPopularArticles R start limit
      else if String.eqb (action ev) "articleMetrics" then Normal NullResponse
      else Throw (VStr "No such method")
  | Throw e => Throw e
  | Hang => Hang
  end.

(** What [Buffer.from(undefined, "base64")] throws. *)
Definition absent_token_error : value :=
  TypeError "The first argument must be of type string or an instance of Buffer, ArrayBuffer, or Array or an Array-like Object. Received undefined".

(** *** Concrete stores *)

(** The cluster cannot be reached. *)
Definition unreachable : redis :=
  mkRedis ["a"] [("a", 1)] (Some (VError "Error" "Connection is closed.")).

(** A leaderboard whose scores are all below 0. *)
Definition below_zero : redis := mkRedis [] [("x", -1); ("y", -3)] None.

Definition three_articles : redis :=
  mkRedis ["a"; "b"; "c"] [("c", 9); ("a", 4); ("b", 1)] None.

Definition sixty_ids : list string :=
  map (fun n => string_of_Z (Z.of_nat n)) (seq 0 60).

(** Sixty articles in both listings, the leaderboard with scores 60 down
    to 1. *)
Definition sixty_articles : redis :=
  mkRedis sixty_ids
    (map (fun n => (string_of_Z (Z.of_nat n), 60 - Z.of_nat n)) (seq 0 60)) None.

End Listing.

(** * Properties *)

(** ** Base64 *)

Section Base64Facts.
Import Base64.

Lemma list_ind3 {A} (P : list A -> Prop) :
  P [] -> (forall a, P [a]) -> (forall a b, P [a; b]) ->
  (forall a b c l, P l -> P (a :: b :: c :: l)) ->
  forall l, P l.
Proof.
  intros H0 H1 H2 H3.
  fix IH 1. intros [|a [|b [|c l]]];
    [apply H0 | apply H1 | apply H2 | apply H3, IH].
Qed.

Lemma sextet_of_char_of_sextet n :
  (n < 64)%N ->
  sextet_of_char (char_of_sextet n) = Some n /\
  Ascii.eqb (char_of_sextet n) "=" = false.
Proof.
  intros H. rewrite <- (N2Nat.id n).
  assert (Hk : (N.to_nat n < 64)%nat) by lia.
  revert Hk. generalize (N.to_nat n). clear. intros k Hk.
  do 64 (destruct k as [|k]; [vm_compute; split; reflexivity|]).
  lia.
Qed.

Lemma sextets_cons n s :
  (n < 64)%N -> sextets (String (char_of_sextet n) s) = n :: sextets s.
Proof.
  intros H. destruct (sextet_of_char_of_sextet n H) as [H1 H2].
  simpl. rewrite H2, H1. reflexivity.
Qed.

Lemma byte_of_N_eq n b : n = Byte.to_N b -> byte_of_N n = b.
Proof. intros ->. unfold byte_of_N. rewrite Byte.of_to_N. reflexivity. Qed.

Ltac euclid := zify; Z.to_euclidean_division_equations; lia.

(** Decoding what was encoded gives the bytes back. *)
Lemma decode_encode bs : decode (encode bs) = bs.
Proof.
  unfold decode. induction bs as [|a|a b|a b c l IH] using list_ind3.
  - reflexivity.
  - pose proof (Byte.to_N_bounded a) as Ha.
    cbn [encode]. do 2 (rewrite sextets_cons by euclid).
    cbn [sextets Ascii.eqb Bool.eqb bytes_of_sextets].
    f_equal. apply byte_of_N_eq. euclid.
  - pose proof (Byte.to_N_bounded a) as Ha.
    pose proof (Byte.to_N_bounded b) as Hb.
    cbn [encode]. do 3 (rewrite sextets_cons by euclid).
    cbn [sextets Ascii.eqb Bool.eqb bytes_of_sextets].
    f_equal; [|f_equal]; apply byte_of_N_eq; euclid.
  - pose proof (Byte.to_N_bounded a) as Ha.
    pose proof (Byte.to_N_bounded b) as Hb.
    pose proof (Byte.to_N_bounded c) as Hc.
    cbn [encode]. do 4 (rewrite sextets_cons by euclid).
    cbn [bytes_of_sextets]. rewrite IH.
    f_equal; [|f_equal; [|f_equal]]; apply byte_of_N_eq; euclid.
Qed.

End Base64Facts.

(** ** Strings, decimal numerals and [parseInt] *)

Section StringFacts.
Import JS Node.

Lemma all_chars_app p s t :
  all_chars p (s +:+ t) = all_chars p s && all_chars p t.
Proof.
  induction s as [|c s IH]; simpl; [reflexivity|].
  rewrite IH. apply andb_assoc.
Qed.

Lemma all_chars_impl (p q : ascii -> bool) s :
  (forall c, p c = true -> q c = true) ->
  all_chars p s = true -> all_chars q s = true.
Proof.
  intros Hpq. induction s as [|c s IH]; simpl; [reflexivity|].
  intros [Hc Hs]%andb_prop. rewrite (Hpq c Hc), (IH Hs). reflexivity.
Qed.

Lemma digit_cases c :
  is_digit c = true ->
  c = "0"%char \/ c = "1"%char \/ c = "2"%char \/ c = "3"%char \/ c = "4"%char \/
  c = "5"%char \/ c = "6"%char \/ c = "7"%char \/ c = "8"%char \/ c = "9"%char.
Proof.
  destruct c as [[] [] [] [] [] [] [] []]; cbv; intros H; try discriminate H; tauto.
Qed.

(** Case analysis on a character known to be a digit. *)
Ltac by_digit H :=
  apply digit_cases in H;
  repeat destruct H as [-> | H]; try subst; reflexivity.

Lemma digit_is_ascii c : is_digit c = true -> is_ascii c = true.
Proof. intros H. by_digit H. Qed.

Lemma digit_not_colon c : is_digit c = true -> not_colon c = true.
Proof. intros H. by_digit H. Qed.

Lemma digit_not_dollar c : is_digit c = true -> not_dollar c = true.
Proof. intros H. by_digit H. Qed.

Lemma digits_of_uint d : all_chars is_digit (NilEmpty.string_of_uint d) = true.
Proof. induction d; simpl; auto. Qed.

Lemma string_of_uint_nonempty p : NilEmpty.string_of_uint (Pos.to_uint p) <> "".
Proof.
  pose proof (DecimalPos.Unsigned.to_uint_nonnil p) as H.
  destruct (Pos.to_uint p); simpl; congruence.
Qed.

Lemma string_of_Z_pos p :
  string_of_Z (Z.pos p) = NilEmpty.string_of_uint (Pos.to_uint p).
Proof.
  unfold string_of_Z. simpl. unfold NilZero.string_of_uint.
  pose proof (DecimalPos.Unsigned.to_uint_nonnil p) as H.
  destruct (Pos.to_uint p); [congruence | reflexivity ..].
Qed.

Lemma string_of_Z_neg p :
  string_of_Z (Z.neg p) = String "-" (NilEmpty.string_of_uint (Pos.to_uint p)).
Proof.
  unfold string_of_Z. simpl. unfold NilZero.string_of_uint.
  pose proof (DecimalPos.Unsigned.to_uint_nonnil p) as H.
  destruct (Pos.to_uint p); [congruence | reflexivity ..].
Qed.

(** A printed integer is an optional minus sign and digits. *)
Lemma string_of_Z_chars (p : ascii -> bool) z :
  p "-"%char = true -> (forall c, is_digit c = true -> p c = true) ->
  all_chars p (string_of_Z z) = true.
Proof.
  intros Hminus Hdigit. destruct z as [|q|q].
  - simpl. rewrite Hdigit; reflexivity.
  - rewrite string_of_Z_pos.
    eapply all_chars_impl; [exact Hdigit | apply digits_of_uint].
  - rewrite string_of_Z_neg. simpl. rewrite Hminus. simpl.
    eapply all_chars_impl; [exact Hdigit | apply digits_of_uint].
Qed.

(** Reading the digits of a decimal numeral back. *)
Lemma parse_digits_acc d p :
  parse_digits 10 (Some (N.pos p)) (NilEmpty.string_of_uint d)
  = Some (N.pos (Pos.of_uint_acc d p)).
Proof.
  revert p. induction d; intros p; simpl; [reflexivity | ..];
    rewrite <- IHd; do 2 f_equal; lia.
Qed.

Lemma parse_digits_uint d :
  d <> Decimal.Nil ->
  parse_digits 10 None (NilEmpty.string_of_uint d) = Some (Pos.of_uint d)
  /\ parse_digits 10 (Some 0%N) (NilEmpty.string_of_uint d) = Some (Pos.of_uint d).
Proof.
  induction d; intros Hd; try congruence;
    try (simpl; rewrite <- parse_digits_acc; split; reflexivity).
  change (parse_digits 10 (Some 0%N) (NilEmpty.string_of_uint d) = Some (Pos.of_uint d)
          /\ parse_digits 10 (Some 0%N) (NilEmpty.string_of_uint d) = Some (Pos.of_uint d)).
  destruct (Decimal.uint_eq_dec d Decimal.Nil) as [->|Hne].
  - split; reflexivity.
  - split; apply IHd, Hne.
Qed.

Lemma parse_digits_pos p :
  parse_digits 10 None (NilEmpty.string_of_uint (Pos.to_uint p)) = Some (N.pos p).
Proof.
  destruct (parse_digits_uint (Pos.to_uint p)) as [-> _].
  - apply DecimalPos.Unsigned.to_uint_nonnil.
  - rewrite DecimalPos.Unsigned.of_to. reflexivity.
Qed.

(** Digits carry no white space, no sign and no [0x] prefix. *)
Lemma unsigned_digits s :
  all_chars is_digit s = true ->
  trim_start s = s /\ sign_prefix s = (false, s) /\ radix_prefix s = (10%N, s).
Proof.
  intros Hs. destruct s as [|c s]; [repeat split|].
  simpl in Hs. apply andb_prop in Hs as [Hc Hs].
  repeat split.
  - by_digit Hc.
  - by_digit Hc.
  - apply digit_cases in Hc. destruct s as [|c2 s].
    + repeat destruct Hc as [-> | Hc]; try subst c; reflexivity.
    + simpl in Hs. apply andb_prop in Hs as [Hc2 _]. apply digit_cases in Hc2.
      repeat destruct Hc as [-> | Hc]; try subst c; try reflexivity;
        repeat destruct Hc2 as [-> | Hc2]; try subst c2; reflexivity.
Qed.

Lemma parseInt_pos p : parseInt (VStr (string_of_Z (Z.pos p))) = Int (Z.pos p).
Proof.
  rewrite string_of_Z_pos. unfold parseInt. cbn [ToString].
  destruct (unsigned_digits _ (digits_of_uint (Pos.to_uint p))) as (-> & -> & ->).
  rewrite parse_digits_pos. reflexivity.
Qed.

Lemma parseInt_neg p : parseInt (VStr (string_of_Z (Z.neg p))) = Int (Z.neg p).
Proof.
  rewrite string_of_Z_neg. unfold parseInt. cbn [ToString].
  change (trim_start (String "-" ?r)) with (String "-" r).
  change (sign_prefix (String "-" ?r)) with (true, r).
  destruct (unsigned_digits _ (digits_of_uint (Pos.to_uint p))) as (_ & _ & ->).
  rewrite parse_digits_pos. reflexivity.
Qed.

(** [parseInt] reads a printed integer back. *)
Lemma parseInt_string_of_Z z : parseInt (VStr (string_of_Z z)) = Int z.
Proof.
  destruct z as [|p|p];
    [reflexivity | apply parseInt_pos | apply parseInt_neg].
Qed.

Lemma string_of_Z_inj a b : string_of_Z a = string_of_Z b -> a = b.
Proof.
  intros H. apply (f_equal (fun s => parseInt (VStr s))) in H.
  rewrite !parseInt_string_of_Z in H. congruence.
Qed.

Lemma ascii_byte_roundtrip c :
  is_ascii c = true ->
  ascii_of_N (N.land (Byte.to_N (byte_of_ascii c)) 127) = c.
Proof.
  destruct c as [[] [] [] [] [] [] [] []]; cbv; intros H;
    try discriminate H; reflexivity.
Qed.

Lemma toString_ascii_utf8 s :
  all_chars is_ascii s = true -> toString_ascii (utf8 s) = s.
Proof.
  induction s as [|c s IH]; [reflexivity|].
  simpl. intros [Hc Hs]%andb_prop.
  unfold is_ascii in Hc. rewrite Hc.
  unfold toString_ascii in *. simpl.
  rewrite ascii_byte_roundtrip by exact Hc. rewrite IH by exact Hs. reflexivity.
Qed.

Lemma split_no_sep sep s :
  all_chars (fun c => negb (Ascii.eqb c sep)) s = true -> split sep s = [s].
Proof.
  induction s as [|c s IH]; [reflexivity|].
  simpl. intros [Hc Hs]%andb_prop.
  apply negb_true_iff in Hc. rewrite Hc, (IH Hs). reflexivity.
Qed.

Lemma length_append s t :
  String.length (s +:+ t) = (String.length s + String.length t)%nat.
Proof. induction s as [|c s IH]; simpl; [reflexivity | rewrite IH; reflexivity]. Qed.

Lemma append_inj_r s1 s2 t : s1 +:+ t = s2 +:+ t -> s1 = s2.
Proof.
  intros H.
  assert (Hlen : String.length s1 = String.length s2).
  { apply (f_equal String.length) in H. rewrite !length_append in H. lia. }
  revert s2 H Hlen. induction s1 as [|c s1 IH]; intros [|c2 s2] H Hlen;
    simpl in *; try discriminate; [reflexivity|].
  injection H as -> H. f_equal. apply IH; [exact H | lia].
Qed.

(** ** [String.prototype.replace] with the pattern of line 106 *)

Lemma get_substitution_plain matched before after t :
  all_chars not_dollar t = true -> get_substitution matched before after t = t.
Proof.
  induction t as [|c t IH]; [reflexivity|].
  simpl. intros [Hc Ht]%andb_prop.
  apply negb_true_iff in Hc. rewrite Hc, (IH Ht). reflexivity.
Qed.

Lemma match_jpg_end_app stem : match_jpg_end (stem +:+ ".jpg") = Some stem.
Proof.
  induction stem as [|c stem IH]; [reflexivity|].
  change (String c stem +:+ ".jpg") with (String c (stem +:+ ".jpg")).
  cbn [match_jpg_end]. rewrite IH.
  destruct (String.eqb (String c (stem +:+ ".jpg")) ".jpg") eqn:Heq; [|reflexivity].
  apply String.eqb_eq in Heq. apply (f_equal String.length) in Heq.
  simpl in Heq. rewrite length_append in Heq. simpl in Heq. lia.
Qed.

Lemma match_jpg_end_none s :
  (forall stem, s <> stem +:+ ".jpg") -> match_jpg_end s = None.
Proof.
  induction s as [|c s IH]; intros H; [reflexivity|].
  cbn [match_jpg_end].
  destruct (String.eqb (String c s) ".jpg") eqn:Heq.
  - apply String.eqb_eq in Heq. exfalso. apply (H ""). exact Heq.
  - rewrite IH; [reflexivity|].
    intros stem ->. apply (H (String c stem)). reflexivity.
Qed.

Lemma match_jpg_end_some s stem : match_jpg_end s = Some stem -> s = stem +:+ ".jpg".
Proof.
  revert stem. induction s as [|c s IH]; intros stem; [discriminate|].
  cbn [match_jpg_end].
  destruct (String.eqb (String c s) ".jpg") eqn:Heq.
  - apply String.eqb_eq in Heq. intros [= <-]. exact Heq.
  - destruct (match_jpg_end s) as [stem'|]; [|discriminate].
    intros [= <-]. change (String c s = String c (stem' +:+ ".jpg")).
    f_equal. apply IH. reflexivity.
Qed.

End StringFacts.

(** ** The image service *)

Section ImageFacts.
Import JS Node Image.
Variable E : env.

Lemma get_prop_no_hang v k : get_prop v k <> Hang.
Proof. destruct v; discriminate. Qed.

(** The handler up to the key of the sized image. *)
Lemma handler_request articleId size st :
  handler E (request articleId size) st =
  match ddb_get E articleId with
  | Rejected e =>
      (Throw e, mkState (bucket st) (calls st ++ [DdbGet articleId]) true (s3client st))
  | Fulfilled imageBaseKey =>
      match derive_step imageBaseKey size with
      | Normal imageKey =>
          bind (try_catch (handler_try E imageKey)
                  (handler_catch E imageBaseKey imageKey articleId size))
            (fun r => match r with
                      | inl response => ret response
                      | inr buffer => lift (handler_respond E buffer)
                      end)
            (mkState (bucket st) (calls st ++ [DdbGet articleId]) true true)
      | Throw e =>
          (Throw e, mkState (bucket st) (calls st ++ [DdbGet articleId]) true (s3client st))
      | Hang =>
          (Hang, mkState (bucket st) (calls st ++ [DdbGet articleId]) true (s3client st))
      end
  end.
Proof.
  unfold handler, request, bind, lift, getArticleMetadata, init_s3client, log. simpl.
  destruct (ddb_get E articleId) as [v|e]; simpl; [|reflexivity].
  destruct (derive_step v size); reflexivity.
Qed.

(** The [try] block cannot throw: what it awaits is the [Body] property of
    a promise, which is [undefined]. *)
Lemma handler_try_run imageKey st :
  s3client st = true ->
  handler_try E imageKey st = (Normal (inr VUndefined), log (S3GetObject imageKey) st).
Proof. intros H. unfold handler_try, bind, lift, getImage. rewrite H. reflexivity. Qed.

(** The same read in [resizeAndStoreImage]: the source bytes never reach
    the resize. *)
Lemma operand_is_undefined imageBaseKey st :
  s3client st = true ->
  resizeAndStoreImage_operand E imageBaseKey st
  = (Normal VUndefined, log (S3GetObject imageBaseKey) st).
Proof.
  intros H. unfold resizeAndStoreImage_operand, bind, lift, getImage.
  rewrite H. reflexivity.
Qed.

(** So [resizeAndStoreImage] resizes [undefined], whatever the bucket holds
    under the base key. *)
Lemma resizeAndStoreImage_source_unread imageBaseKey newImageKey articleId width st :
  s3client st = true ->
  width <> VUndefined ->
  resizeAndStoreImage E imageBaseKey newImageKey articleId width st
  = resizeAndStoreImage_resume E VUndefined imageBaseKey newImageKey articleId width
      (log (S3GetObject imageBaseKey) st).
Proof.
  intros Hc Hw. unfold resizeAndStoreImage, bind.
  rewrite operand_is_undefined by exact Hc.
  destruct width; try reflexivity. congruence.
Qed.

(** With a string for the base key the handler reads the sized key once
    and throws on [buffer.toString]. *)
Lemma handler_string_key articleId size baseKey st :
  ddb_get E articleId = Fulfilled (VStr baseKey) ->
  handler E (request articleId size) st =
  (Throw undefined_toString,
   mkState (bucket st)
     (calls st ++ [DdbGet articleId; S3GetObject (VStr (derive baseKey size))])
     true true).
Proof.
  intros H. rewrite handler_request, H. cbn [derive_step].
  unfold bind, try_catch. rewrite handler_try_run by reflexivity.
  unfold log. cbn. rewrite <- app_assoc. reflexivity.
Qed.

(** With the object [DocumentClient.get] resolves to, the handler stops on
    line 106. *)
Lemma handler_item_object articleId size props st :
  ddb_get E articleId = Fulfilled (VObject props) ->
  handler E (request articleId size) st =
  (Throw (TypeError "imageBaseKey.replace is not a function"),
   mkState (bucket st) (calls st ++ [DdbGet articleId]) true (s3client st)).
Proof. intros H. rewrite handler_request, H. reflexivity. Qed.

Lemma handler_document_client :
  handler document_client image_request (cold base_only)
  = (Throw (TypeError "imageBaseKey.replace is not a function"),
     mkState base_only [DdbGet (VStr "123")] true false).
Proof. reflexivity. Qed.

(** No event makes the handler return: every run ends in a [throw], and
    the bucket is left as it was. *)
Lemma handler_never_returns event st :
  exists e st', handler E event st = (Throw e, st') /\ bucket st' = bucket st.
Proof.
  unfold handler, bind, lift.
  destruct (get_prop event "pathParameters") as [pp|e|] eqn:H1;
    [|eauto|destruct (get_prop_no_hang _ _ H1)].
  destruct (get_prop pp "id") as [articleId|e|] eqn:H2;
    [|eauto|destruct (get_prop_no_hang _ _ H2)].
  destruct (get_prop event "queryStringParameters") as [qs|e|] eqn:H3;
    [|eauto|destruct (get_prop_no_hang _ _ H3)].
  destruct (get_prop qs "size") as [size|e|] eqn:H4;
    [|eauto|destruct (get_prop_no_hang _ _ H4)].
  unfold getArticleMetadata, log. cbn [await].
  destruct (ddb_get E articleId) as [v|e]; [|eauto].
  destruct (derive_step v size) as [imageKey|e|] eqn:H5; [|eauto|].
  - unfold init_s3client, try_catch. rewrite handler_try_run by reflexivity.
    cbn. eauto.
  - destruct v; discriminate H5.
Qed.

(** The [catch] clause throws on its first test, whatever error it is
    given: it neither starts a resize nor answers 404. *)
Lemma handler_catch_throws imageBaseKey imageKey articleId size e st :
  handler_catch E imageBaseKey imageKey articleId size e st
  = (Throw (ReferenceError "NoSuchKeyError is not defined"), st).
Proof. reflexivity. Qed.

(** The key of the sized image when the size holds no [$]. *)
Lemma derive_plain stem size :
  all_chars not_dollar (ToString size) = true ->
  derive (stem +:+ ".jpg") size = stem +:+ "-" +:+ ToString size +:+ ".jpg".
Proof.
  intros H. unfold derive, replace_jpg_end. rewrite match_jpg_end_app.
  rewrite get_substitution_plain; [reflexivity|].
  rewrite !all_chars_app, H. reflexivity.
Qed.

Lemma derive_no_suffix baseKey size :
  (forall stem, baseKey <> stem +:+ ".jpg") -> derive baseKey size = baseKey.
Proof.
  intros H. unfold derive, replace_jpg_end.
  rewrite match_jpg_end_none by exact H. reflexivity.
Qed.

Lemma derive_width stem w :
  derive (stem +:+ ".jpg") (size_of_width w)
  = stem +:+ "-" +:+ string_of_Z (Z.pos w) +:+ ".jpg".
Proof.
  apply derive_plain. cbn [size_of_width ToString].
  apply string_of_Z_chars; [reflexivity | apply digit_not_dollar].
Qed.

End ImageFacts.

(** ** Claims on the image service *)

Section ImageClaims.
Import JS Node Image.

(** C1 (miss-then-populate), evaluated where the claim applies: the bucket
    holds the base image of article 123 only and the request asks for
    width 300.  The handler issues the metadata read and the read of the
    sized key, then throws a TypeError; sharp is never called, nothing is
    put, and a read of [articles/123-300.jpg] afterwards still fails with
    NoSuchKey. *)
Theorem miss_is_not_populated :
  let run := handler healthy image_request (cold base_only) in
  base_only !! "articles/123.jpg" = Some base_image /\
  base_only !! "articles/123-300.jpg" = None /\
  run.1 = Throw undefined_toString /\
  calls run.2 = [DdbGet (VStr "123"); S3GetObject (VStr "articles/123-300.jpg")] /\
  bucket run.2 = base_only /\
  s3_getObject healthy (bucket run.2) (VStr "articles/123-300.jpg") = Rejected NoSuchKey.
Proof.
  cbv zeta.
  rewrite (handler_string_key healthy (VStr "123") (VStr "300") "articles/123.jpg")
    by reflexivity.
  repeat split; vm_compute; reflexivity.
Qed.


(** C3 (read-through), as the code has it: when the sized image is in the
    bucket and can be read, the handler makes exactly two calls, the
    metadata read of the article and then the read of the sized key, which
    succeeds; sharp is not called and the bucket is not written. *)
Theorem cache_hit_calls
    (E : env) (st : state) (articleId size : value) (baseKey : string) (o : S3Object) :
  ddb_get E articleId = Fulfilled (VStr baseKey) ->
  s3_get_fault E (derive baseKey size) = None ->
  bucket st !! derive baseKey size = Some o ->
  let run := handler E (request articleId size) st in
  calls run.2
    = (calls st ++ [DdbGet articleId; S3GetObject (VStr (derive baseKey size))])%list /\
  s3_getObject E (bucket st) (VStr (derive baseKey size)) = Fulfilled (response_of_object o) /\
  bucket run.2 = bucket st.
Proof.
  intros Hddb Hfault Hhit. cbv zeta.
  rewrite (handler_string_key E articleId size baseKey st Hddb).
  unfold s3_getObject. rewrite Hfault, Hhit. repeat split.
Qed.

Lemma cache_hit_calls_witness :
  let run := handler healthy image_request (cold with_sized) in
  calls run.2 = [DdbGet (VStr "123"); S3GetObject (VStr "articles/123-300.jpg")] /\
  s3_getObject healthy with_sized (VStr "articles/123-300.jpg")
    = Fulfilled (response_of_object sized_image) /\
  bucket run.2 = with_sized.
Proof.
  apply (cache_hit_calls healthy (cold with_sized) (VStr "123") (VStr "300")
           "articles/123.jpg" sized_image); vm_compute; reflexivity.
Defined.

(** C3 as stated fails: the sized image is cached, yet the metadata read
    is made, and the cached bytes are not what the handler returns. *)
Lemma read_through_counterexample :
  let run := handler healthy image_request (cold with_sized) in
  s3_getObject healthy with_sized (VStr "articles/123-300.jpg")
    = Fulfilled (response_of_object sized_image) /\
  In (DdbGet (VStr "123")) (calls run.2) /\
  run.1 <> Normal (image_response healthy (Base64.encode resized_bytes)).
Proof.
  cbv zeta.
  rewrite (handler_string_key healthy (VStr "123") (VStr "300") "articles/123.jpg")
    by reflexivity.
  split; [vm_compute; reflexivity | split; [simpl; left; reflexivity | discriminate]].
Qed.

(** C4 (error status mapping), as the code has it: a failure of the
    metadata lookup is given no status.  Whatever error the lookup rejects
    with, the invocation rejects with that same error right after the
    lookup: no response is returned, so no 404, 502 or 503 tells the kind
    of the failure, and neither the bucket nor sharp is reached. *)
Theorem failed_lookup_gets_no_status
    (E : env) (st : state) (articleId size : value) (lookup_error : value) :
  ddb_get E articleId = Rejected lookup_error ->
  let run := handler E (request articleId size) st in
  run = (Throw lookup_error,
         mkState (bucket st) (calls st ++ [DdbGet articleId]) true (s3client st)) /\
  (forall response, run.1 <> Normal response).
Proof.
  intros Hddb. cbv zeta. rewrite handler_request, Hddb.
  split; [reflexivity | discriminate].
Qed.

Lemma failed_lookup_gets_no_status_witness :
  let run := handler lookup_outage image_request (cold base_only) in
  run = (Throw unavailable, mkState base_only [DdbGet (VStr "123")] true false) /\
  (forall response, run.1 <> Normal response).
Proof.
  apply (failed_lookup_gets_no_status lookup_outage (cold base_only)
           (VStr "123") (VStr "300") unavailable).
  reflexivity.
Defined.

(** C4 as stated fails: with the articles table out of reach the request
    ends in a rejection that carries the error of the table; no response
    is returned, so none with a 502 or 503 status. *)
Lemma error_status_counterexample :
  ddb_get lookup_outage (VStr "123") = Rejected unavailable /\
  (handler lookup_outage image_request (cold base_only)).1 = Throw unavailable /\
  (forall response,
      (handler lookup_outage image_request (cold base_only)).1 <> Normal response).
Proof.
  split; [reflexivity | split; [vm_compute; reflexivity|]].
  intros response.
  replace (handler lookup_outage image_request (cold base_only)).1
    with (@Throw value unavailable) by (vm_compute; reflexivity).
  discriminate.
Qed.

(** C5 (key injectivity), as the code has it: for a base key that ends in
    [.jpg], two widths give the same key of the sized image exactly when
    they are the same width, and no width gives back the base key.  The
    width is the decimal text the query string carries; a width that
    arrives as a number gives the same key as its text when it is a safe
    integer. *)
Theorem derive_injective_on_jpg (stem : string) (w1 w2 : positive) :
  (derive (stem +:+ ".jpg") (size_of_width w1) = derive (stem +:+ ".jpg") (size_of_width w2)
   <-> w1 = w2) /\
  derive (stem +:+ ".jpg") (size_of_width w1) <> stem +:+ ".jpg" /\
  (isSafeInteger (Z.pos w1) = true ->
   derive (stem +:+ ".jpg") (VNum (Int (Z.pos w1))) = derive (stem +:+ ".jpg") (size_of_width w1)).
Proof.
  split; [|split; [|reflexivity]]; rewrite !derive_width; [split|].
  - intros H. apply String.app_inj in H.
    change (String "-" (string_of_Z (Z.pos w1) +:+ ".jpg")
            = String "-" (string_of_Z (Z.pos w2) +:+ ".jpg")) in H.
    injection H as H.
    apply append_inj_r, string_of_Z_inj in H. congruence.
  - intros ->. reflexivity.
  - intros H. apply String.app_inj in H. discriminate H.
Qed.

Lemma derive_injective_on_jpg_witness :
  (derive ("articles/123" +:+ ".jpg") (size_of_width 300)
   = derive ("articles/123" +:+ ".jpg") (size_of_width 600)
   <-> 300%positive = 600%positive) /\
  derive ("articles/123" +:+ ".jpg") (size_of_width 300) <> "articles/123" +:+ ".jpg" /\
  derive ("articles/123" +:+ ".jpg") (VNum (Int 300))
  = derive ("articles/123" +:+ ".jpg") (size_of_width 300).
Proof.
  destruct (derive_injective_on_jpg "articles/123" 300 600) as (H1 & H2 & H3).
  split; [exact H1 | split; [exact H2 | apply H3; reflexivity]].
Defined.

(** C5 as stated fails on a base key without the suffix: every width gives
    the same key, the base key itself. *)
Lemma key_injectivity_counterexample :
  derive "articles/123.png" (size_of_width 300) = derive "articles/123.png" (size_of_width 600) /\
  300%positive <> 600%positive /\
  derive "articles/123.png" (size_of_width 300) = "articles/123.png".
Proof. split; [|split]; [vm_compute; reflexivity | discriminate | vm_compute; reflexivity]. Qed.

(** C6 (invalid key format), as the code has it: on a base key that does
    not end in [.jpg] the derivation step does not fail; [replace] finds no
    match and the key of the sized image is the base key, unchanged. *)
Theorem derive_step_without_suffix (baseKey : string) (size : value) :
  (forall stem, baseKey <> stem +:+ ".jpg") ->
  derive_step (VStr baseKey) size = Normal (VStr baseKey).
Proof. intros H. cbn [derive_step]. rewrite derive_no_suffix by exact H. reflexivity. Qed.

Lemma png_has_no_jpg_suffix : forall stem, "articles/123.png" <> stem +:+ ".jpg".
Proof.
  intros stem H.
  pose proof (match_jpg_end_app stem) as Hm. rewrite <- H in Hm.
  vm_compute in Hm. discriminate Hm.
Defined.

Lemma derive_step_without_suffix_witness :
  derive_step (VStr "articles/123.png") (VStr "300") = Normal (VStr "articles/123.png").
Proof.
  apply (derive_step_without_suffix "articles/123.png" (VStr "300")).
  exact png_has_no_jpg_suffix.
Defined.

(** C6 as stated fails: [articles/123.png] does not end in [.jpg], and the
    derivation step produces a key for it instead of an error. *)
Lemma invalid_key_counterexample :
  (forall stem, "articles/123.png" <> stem +:+ ".jpg") /\
  derive_step (VStr "articles/123.png") (VStr "300") = Normal (VStr "articles/123.png") /\
  (forall e, derive_step (VStr "articles/123.png") (VStr "300") <> Throw e).
Proof.
  split; [exact png_has_no_jpg_suffix | split; [vm_compute; reflexivity|]].
  intros e. vm_compute. discriminate.
Qed.

(** C7 (concrete key derivation): base key [articles/123.jpg] and width 300
    give [articles/123-300.jpg], whether the width arrives as the number
    or as the query-string text. *)
Theorem derive_concrete :
  derive "articles/123.jpg" (VNum (Int 300)) = "articles/123-300.jpg" /\
  derive "articles/123.jpg" (VStr "300") = "articles/123-300.jpg" /\
  derive_step (VStr "articles/123.jpg") (VStr "300") = Normal (VStr "articles/123-300.jpg").
Proof. split; [|split]; vm_compute; reflexivity. Qed.

End ImageClaims.

(** ** The listing function *)

Section ListingFacts.
Import JS Node Listing.
#[local] Open Scope Z_scope.

(** A token decodes to the index it was made from. *)
Lemma decode_encode_token z :
  _decodeNextToken (VStr (_encodeNextToken "Article" (Int z))) = Normal (Int z).
Proof.
  unfold _decodeNextToken, _encodeNextToken. cbn [Buffer_from_base64 string_of_num].
  rewrite decode_encode.
  rewrite toString_ascii_utf8.
  2:{ rewrite !all_chars_app. simpl.
      apply string_of_Z_chars; [reflexivity | apply digit_is_ascii]. }
  change ("Article" +:+ ":" +:+ string_of_Z z)
    with (String "A" (String "r" (String "t" (String "i" (String "c" (String "l"
           (String "e" (String ":" (string_of_Z z))))))))).
  cbn [split Ascii.eqb Bool.eqb].
  rewrite split_no_sep
    by (apply (string_of_Z_chars not_colon); [reflexivity | apply digit_not_colon]).
  cbn [index nth_error]. rewrite parseInt_string_of_Z. reflexivity.
Qed.

Lemma token_nonempty n : _encodeNextToken "Article" n <> "".
Proof. unfold _encodeNextToken. simpl. discriminate. Qed.


(** The token [_returnArticleList] issues for a length and a last index. *)
Lemma returnArticleList_token ids len end_ :
  _returnArticleList (Ok ids, Ok len) (Int end_) =
  ArticleList ids
    (if (end_ <? Z.min len 50) && negb (end_ + 1 =? 0)
     then _encodeNextToken "Article" (Int (end_ + 1)) else "").
Proof.
  unfold _returnArticleList. cbn [gt add truthy].
  destruct (end_ <? Z.min len 50); [|reflexivity].
  destruct (end_ + 1 =? 0); reflexivity.
Qed.

(** What Redis reads as an integer is the number itself. *)
Lemma redis_integer_Int z z' : redis_integer (Int z) = Some z' -> z' = z.
Proof. unfold redis_integer. destruct (_ && _); congruence. Qed.

Lemma redis_integer_ok z :
  -9223372036854775808 < z < 9223372036854775808 -> redis_integer (Int z) = Some z.
Proof.
  intros H. unfold redis_integer.
  replace (-9223372036854775808 <? z) with true by lia.
  replace (z <? 9223372036854775808) with true by lia. reflexivity.
Qed.

Lemma redis_integer_bounds z z' :
  redis_integer (Int z) = Some z' -> -9223372036854775808 < z < 9223372036854775808.
Proof.
  unfold redis_integer.
  destruct (-9223372036854775808 <? z) eqn:H1; [|discriminate].
  destruct (z <? 9223372036854775808) eqn:H2; [|discriminate]. lia.
Qed.

Lemma error_response_not_list e ids tok :
  error_response e <> Normal (ArticleList ids tok).
Proof. unfold error_response. destruct (get_prop e "message"); congruence. Qed.

(** A listing that answers with ids had integers for its range and no
    failed command. *)
Lemma listing_ok (R : redis) (l : list string) (len : Z) start limit ids tok :
  match exec R (range_reply l start (sub (add start limit) (Int 1))) (@Ok Z len) with
  | Normal result => Normal (_returnArticleList result (sub (add start limit) (Int 1)))
  | Throw error => error_response error
  | Hang => Hang
  end = Normal (ArticleList ids tok) ->
  exists s l', start = Int s /\ limit = Int l' /\
    ids = range l s (s + l' - 1) /\
    tok = (if (s + l' - 1 <? Z.min len 50) && negb (s + l' - 1 + 1 =? 0)
           then _encodeNextToken "Article" (Int (s + l' - 1 + 1)) else "").
Proof.
  unfold exec. destruct (exec_fault R) as [e|].
  { intros H. destruct (error_response_not_list _ _ _ H). }
  destruct start as [|s]; [discriminate|].
  destruct limit as [|l'].
  { cbn [add sub]. unfold range_reply.
    destruct (redis_integer (Int s)); discriminate. }
  cbn [add sub]. unfold range_reply.
  destruct (redis_integer (Int s)) as [s'|] eqn:Hs; [|discriminate].
  destruct (redis_integer (Int (s + l' - 1))) as [e'|] eqn:He; [|discriminate].
  apply redis_integer_Int in Hs, He. subst s' e'.
  rewrite returnArticleList_token.
  intros [= <- <-]. exists s, l'. repeat split.
Qed.

Lemma getLatestArticles_ok R start limit ids tok len :
  llen R = Ok len ->
  getLatestArticles R start limit = Normal (ArticleList ids tok) ->
  exists s l, start = Int s /\ limit = Int l /\
    ids = range (latest R) s (s + l - 1) /\
    tok = (if (s + l - 1 <? Z.min len 50) && negb (s + l - 1 + 1 =? 0)
           then _encodeNextToken "Article" (Int (s + l - 1 + 1)) else "").
Proof.
  intros Hlen H. unfold getLatestArticles, lrange in H. rewrite Hlen in H.
  exact (listing_ok R (latest R) len start limit ids tok H).
Qed.

Lemma getPopularArticles_ok R start limit ids tok len :
  zcount_from_0 R = Ok len ->
  getPopularArticles R start limit = Normal (ArticleList ids tok) ->
  exists s l, start = Int s /\ limit = Int l /\
    ids = range (map fst (popular R)) s (s + l - 1) /\
    tok = (if (s + l - 1 <? Z.min len 50) && negb (s + l - 1 + 1 =? 0)
           then _encodeNextToken "Article" (Int (s + l - 1 + 1)) else "").
Proof.
  intros Hlen H. unfold getPopularArticles, zrevrange in H. rewrite Hlen in H.
  exact (listing_ok R (map fst (popular R)) len start limit ids tok H).
Qed.

End ListingFacts.

(** ** Claims on the listing function *)

Section ListingClaims.
Import JS Node Listing.
#[local] Open Scope Z_scope.




(** C9 (absent nextToken): the start index is 0 without decoding only for
    the empty string; every other value of [args.nextToken] is decoded.
    When the field is absent the handler calls [_decodeNextToken] on
    [undefined], [Buffer.from] throws, and the request ends there, whatever
    the action and the limit: it does not behave as the request for the
    start of the list does. *)
Theorem absent_nextToken_is_decoded (R : redis) (act : string) (lim : arg Z) :
  (forall v, v = VStr "" \/ start_of v = _decodeNextToken v) /\
  start_of (VStr "") = Normal (Int 0) /\
  start_of (value_of_arg Absent) = _decodeNextToken VUndefined /\
  _decodeNextToken VUndefined = Throw absent_token_error /\
  handler R (mkEvent act lim Absent) = Throw absent_token_error /\
  handler R (mkEvent act lim Absent) <> handler R (mkEvent act lim (Given "")).
Proof.
  assert (Habsent : handler R (mkEvent act lim Absent) = Throw absent_token_error)
    by reflexivity.
  repeat split; try reflexivity.
  - intros v. destruct v as [| | | |s| | | |]; try (right; reflexivity).
    destruct s as [|c s]; [left|right]; reflexivity.
  - rewrite Habsent. unfold handler. cbn [nextToken value_of_arg start_of action].
    destruct (String.eqb act "latestArticles").
    { unfold getLatestArticles, exec. destruct (exec_fault R) as [e|]; [|discriminate].
      unfold error_response. destruct e; discriminate. }
    destruct (String.eqb act "popularArticles").
    { unfold getPopularArticles, exec. destruct (exec_fault R) as [e|]; [|discriminate].
      unfold error_response. destruct e; discriminate. }
    destruct (String.eqb act "articleMetrics"); discriminate.
Qed.

(** C10 (nextToken), as the code has it: in a listing that answers with
    ids, for [start], [limit] and [start + limit] safe integers, the
    nextToken is not empty exactly when
    [min(length, 50) > start + limit - 1] and [start + limit] is not 0; a
    token that is not empty decodes to [start + limit].  [length] is the
    reply of [LLEN], of [ZCOUNT] for the popular listing. *)
Theorem next_token_spec
    (R : redis) (start limit : Z) (ids : list string) (tok : string) (len : Z) :
  isSafeInteger start = true ->
  isSafeInteger limit = true ->
  isSafeInteger (start + limit) = true ->
  (getLatestArticles R (Int start) (Int limit) = Normal (ArticleList ids tok)
   /\ llen R = Ok len)
  \/ (getPopularArticles R (Int start) (Int limit) = Normal (ArticleList ids tok)
      /\ zcount_from_0 R = Ok len) ->
  (tok <> "" <-> (start + limit - 1 < Z.min len 50 /\ start + limit <> 0)) /\
  (tok <> "" -> _decodeNextToken (VStr tok) = Normal (Int (start + limit))).
Proof.
  intros _ _ _ H.
  assert (Hshape :
    tok = (if (start + limit - 1 <? Z.min len 50) && negb (start + limit - 1 + 1 =? 0)
           then _encodeNextToken "Article" (Int (start + limit - 1 + 1)) else "")).
  { destruct H as [[H Hlen]|[H Hlen]].
    - destruct (getLatestArticles_ok R _ _ _ _ _ Hlen H)
        as (s & l & [= <-] & [= <-] & _ & Ht). exact Ht.
    - destruct (getPopularArticles_ok R _ _ _ _ _ Hlen H)
        as (s & l & [= <-] & [= <-] & _ & Ht). exact Ht. }
  rewrite Hshape.
  replace (start + limit - 1 + 1) with (start + limit) by lia.
  destruct ((start + limit - 1 <? Z.min len 50) && negb (start + limit =? 0)) eqn:Hcond.
  - split.
    + split; [intros _; lia | intros _; apply token_nonempty].
    + intros _. apply decode_encode_token.
  - split.
    + split; [congruence | lia].
    + congruence.
Qed.

Lemma next_token_spec_witness :
  ("QXJ0aWNsZToy" <> "" <-> (0 + 2 - 1 < Z.min 3 50 /\ 0 + 2 <> 0)) /\
  ("QXJ0aWNsZToy" <> "" -> _decodeNextToken (VStr "QXJ0aWNsZToy") = Normal (Int (0 + 2))).
Proof.
  apply (next_token_spec three_articles 0 2 ["a"; "b"] "QXJ0aWNsZToy" 3);
    [reflexivity | reflexivity | reflexivity |].
  left. split; vm_compute; reflexivity.
Defined.

(** C10 as stated fails when [start + limit] is 0: the first page asked
    with limit 0 has [min(length, 50) > start + limit - 1], and its
    nextToken is empty. *)
Lemma next_token_counterexample :
  handler three_articles (mkEvent "latestArticles" (Given 0) (Given ""))
    = getLatestArticles three_articles (Int 0) (Int 0) /\
  getLatestArticles three_articles (Int 0) (Int 0)
    = Normal (ArticleList ["a"; "b"; "c"] "") /\
  llen three_articles = Ok 3 /\
  0 + 0 - 1 < Z.min 3 50.
Proof.
  split; [reflexivity | split; [vm_compute; reflexivity | split; [reflexivity | lia]]].
Qed.

End ListingClaims.

(** ** Further properties of the image service *)

Section ImageExtras.
Import JS Node Image.

(** X1: whatever the event, the environment and the state, a run of the
    handler ends in a [throw], leaves the bucket as it was, and makes at
    most two calls, both reads: it never resizes and never puts. *)
Theorem image_handler_only_reads (E : env) (event : value) (st : state) :
  exists e st' made,
    handler E event st = (Throw e, st') /\
    bucket st' = bucket st /\
    calls st' = (calls st ++ made)%list /\
    forallb is_read made = true /\
    (List.length made <= 2)%nat.
Proof.
  assert (Hstop : forall e, exists e' st' made,
             (@Throw value e, st) = (Throw e', st') /\
             bucket st' = bucket st /\
             calls st' = (calls st ++ made)%list /\
             forallb is_read made = true /\
             (List.length made <= 2)%nat).
  { intros e. exists e, st, []. rewrite app_nil_r. repeat split. simpl. lia. }
  unfold handler, bind, lift.
  destruct (get_prop event "pathParameters") as [pp|e|] eqn:H1;
    [|apply Hstop|destruct (get_prop_no_hang _ _ H1)].
  destruct (get_prop pp "id") as [articleId|e|] eqn:H2;
    [|apply Hstop|destruct (get_prop_no_hang _ _ H2)].
  destruct (get_prop event "queryStringParameters") as [qs|e|] eqn:H3;
    [|apply Hstop|destruct (get_prop_no_hang _ _ H3)].
  destruct (get_prop qs "size") as [size|e|] eqn:H4;
    [|apply Hstop|destruct (get_prop_no_hang _ _ H4)].
  unfold getArticleMetadata, log. cbn [await].
  destruct (ddb_get E articleId) as [v|e].
  2:{ eexists _, _, [DdbGet articleId]. repeat split. simpl. lia. }
  destruct (derive_step v size) as [imageKey|e|] eqn:H5.
  - unfold init_s3client, try_catch. rewrite handler_try_run by reflexivity.
    cbn. eexists _, _, [DdbGet articleId; S3GetObject imageKey].
    split; [reflexivity|]. unfold log. cbn. rewrite <- app_assoc. repeat split.
    simpl. lia.
  - eexists _, _, [DdbGet articleId]. repeat split. simpl. lia.
  - destruct v; discriminate H5.
Qed.

(** X2: a request without a query string ([queryStringParameters] is
    [null] or missing) is refused by the destructuring of line 101 with a
    TypeError before any call is made; no default width is applied. *)
Theorem missing_query_string_throws_first
    (E : env) (event pathParameters articleId query : value) (st : state) :
  get_prop event "pathParameters" = Normal pathParameters ->
  get_prop pathParameters "id" = Normal articleId ->
  get_prop event "queryStringParameters" = Normal query ->
  query = VNull \/ query = VUndefined ->
  exists message, handler E event st = (Throw (TypeError message), st).
Proof.
  intros H1 H2 H3 Hq. unfold handler, bind, lift. rewrite H1, H2, H3.
  destruct Hq as [-> | ->]; eexists; reflexivity.
Qed.

Lemma missing_query_string_throws_first_witness :
  exists message,
    handler healthy
      (VObject [("pathParameters", VObject [("id", VStr "123")]);
                ("queryStringParameters", VNull)])
      (cold base_only)
    = (Throw (TypeError message), cold base_only).
Proof.
  apply (missing_query_string_throws_first healthy _ (VObject [("id", VStr "123")])
           (VStr "123") VNull);
    [reflexivity | reflexivity | reflexivity | left; reflexivity].
Defined.

(** X3: when the metadata read resolves to anything but a string (the
    object [DocumentClient.get] resolves to, [undefined], ...), the
    handler throws a TypeError on line 106, after the metadata read and
    before the S3 client is created or any object is read. *)
Theorem non_string_base_key_stops_before_s3
    (E : env) (st : state) (articleId size found : value) :
  ddb_get E articleId = Fulfilled found ->
  (forall baseKey, found <> VStr baseKey) ->
  exists message,
    handler E (request articleId size) st
    = (Throw (TypeError message),
       mkState (bucket st) (calls st ++ [DdbGet articleId]) true (s3client st)).
Proof.
  intros Hddb Hfound. rewrite handler_request, Hddb.
  destruct found; try (eexists; reflexivity).
  destruct (Hfound s). reflexivity.
Qed.

Lemma non_string_base_key_stops_before_s3_witness :
  exists message,
    handler document_client (request (VStr "123") (VStr "300")) (cold base_only)
    = (Throw (TypeError message),
       mkState (bucket (cold base_only)) (calls (cold base_only) ++ [DdbGet (VStr "123")])
         true (s3client (cold base_only))).
Proof.
  apply (non_string_base_key_stops_before_s3 document_client (cold base_only)
           (VStr "123") (VStr "300")
           (VObject [("Item", VObject [("image", VStr "articles/123.jpg")])])).
  - reflexivity.
  - intros baseKey H. discriminate H.
Defined.

(** X4: the [try] block of lines 112-113 never reaches its [catch] clause.
    Whatever the clause is and whatever the read of the sized key does
    (found, missing, bucket out of reach), the block ends normally with
    [buffer] undefined, one read issued. *)
Theorem catch_clause_is_unreachable
    (E : env) (imageKey : value) (st : state)
    (h : value -> M state (value + value)) :
  s3client st = true ->
  try_catch (handler_try E imageKey) h st
  = (Normal (inr VUndefined), log (S3GetObject imageKey) st).
Proof.
  intros H. unfold try_catch, handler_try, bind, lift, getImage.
  rewrite H. reflexivity.
Qed.

Lemma catch_clause_is_unreachable_witness :
  try_catch (handler_try read_outage (VStr "articles/123-300.jpg"))
    (handler_catch read_outage (VStr "articles/123.jpg") (VStr "articles/123-300.jpg")
       (VStr "123") (VStr "300"))
    (warm base_only)
  = (Normal (inr VUndefined), log (S3GetObject (VStr "articles/123-300.jpg")) (warm base_only)).
Proof.
  apply (catch_clause_is_unreachable read_outage (VStr "articles/123-300.jpg")
           (warm base_only)).
  reflexivity.
Defined.

(** X6: [resizeAndStoreImage], awaited, reads the base key, then calls the
    resize with [undefined] for the source (never with bytes of the
    bucket) and with the requested width, or [DEFAULT_IMAGE_WIDTH] when
    that argument is [undefined]; a put follows only when this resize
    fulfilled, with its result. *)
Theorem resize_is_fed_undefined
    (E : env) (st : state) (imageBaseKey newImageKey articleId desiredWidth : value) :
  s3client st = true ->
  let run := resizeAndStoreImage E imageBaseKey newImageKey articleId desiredWidth st in
  let width := width_or_default E desiredWidth in
  exists rest,
    calls run.2
      = (calls st ++ [S3GetObject imageBaseKey; SharpResize VUndefined width] ++ rest)%list /\
    (rest = [] \/
     exists image, sharp E VUndefined width = Some (Fulfilled image)
                   /\ rest = [S3PutObject newImageKey image]).
Proof.
  intros Hc. cbv zeta.
  unfold resizeAndStoreImage, bind. fold (width_or_default E desiredWidth).
  rewrite operand_is_undefined by exact Hc.
  unfold resizeAndStoreImage_resume, bind, lift, processImage, storeImage, log. cbn.
  rewrite <- !app_assoc.
  destruct (sharp E VUndefined (width_or_default E desiredWidth)) as [[image|e]|] eqn:Hs; cbn.
  - rewrite Hc.
    destruct (s3_putObject E (bucket st) newImageKey image "image/jpeg"
                [("articleId", articleId); ("imageBaseKey", imageBaseKey)]) as [b o].
    exists [S3PutObject newImageKey image].
    split; [|right; eauto].
    destruct image as [| | | | | | | | [[x|x]|]]; destruct o; cbn;
      rewrite <- ?app_assoc; reflexivity.
  - exists []. split; [reflexivity | left; reflexivity].
  - exists []. split; [reflexivity | left; reflexivity].
Qed.

Lemma resize_is_fed_undefined_witness :
  let run := resizeAndStoreImage healthy (VStr "articles/123.jpg")
               (VStr "articles/123-300.jpg") (VStr "123") VUndefined (warm base_only) in
  exists rest,
    calls run.2
      = ([] ++ [S3GetObject (VStr "articles/123.jpg"); SharpResize VUndefined (VStr "600")]
            ++ rest)%list /\
    (rest = [] \/
     exists image, sharp healthy VUndefined (VStr "600") = Some (Fulfilled image)
                   /\ rest = [S3PutObject (VStr "articles/123-300.jpg") image]).
Proof.
  apply (resize_is_fed_undefined healthy (warm base_only) (VStr "articles/123.jpg")
           (VStr "articles/123-300.jpg") (VStr "123") VUndefined).
  reflexivity.
Defined.

(** X7: when the resize rejects, [resizeAndStoreImage] (from its first
    [await] on) rejects with the same error right after the resize: no
    put is attempted and the bucket is untouched. *)
Theorem resize_failure_skips_put
    (E : env) (st : state)
    (operand buffer imageBaseKey newImageKey articleId width e : value) :
  await operand = Normal buffer ->
  sharp E buffer width = Some (Rejected e) ->
  resizeAndStoreImage_resume E operand imageBaseKey newImageKey articleId width st
  = (Throw e, log (SharpResize buffer width) st).
Proof.
  intros Ha Hs. unfold resizeAndStoreImage_resume, bind, lift, processImage.
  rewrite Ha, Hs. reflexivity.
Qed.

Lemma resize_failure_skips_put_witness :
  resizeAndStoreImage_resume healthy VUndefined (VStr "articles/123.jpg")
    (VStr "articles/123-300.jpg") (VStr "123") (VStr "300") (warm base_only)
  = (Throw (VError "Error" "Invalid input"),
     log (SharpResize VUndefined (VStr "300")) (warm base_only)).
Proof.
  apply (resize_failure_skips_put healthy (warm base_only) VUndefined VUndefined);
    reflexivity.
Defined.

Lemma append_assoc (a b c : string) : (a +:+ b) +:+ c = a +:+ (b +:+ c).
Proof.
  induction a as [|x a IH]; [reflexivity|].
  change (String x ((a +:+ b) +:+ c) = String x (a +:+ (b +:+ c))).
  rewrite IH. reflexivity.
Qed.

Lemma get_substitution_app matched before after s t :
  all_chars not_dollar s = true ->
  get_substitution matched before after (s +:+ t)
  = s +:+ get_substitution matched before after t.
Proof.
  induction s as [|c s IH]; [reflexivity|].
  simpl. intros [Hc Hs]%andb_prop.
  apply negb_true_iff in Hc.
  change (String c s +:+ t) with (String c (s +:+ t)).
  cbn [get_substitution]. rewrite Hc, (IH Hs). reflexivity.
Qed.

(** X10: for a base key that ends in [.jpg] and sizes whose text holds no
    [$] (any query-string text, not only widths), two sizes give the same
    key exactly when their texts are equal, and the key differs from the
    base key. *)
Theorem derive_injective_without_dollar (stem : string) (size1 size2 : value) :
  all_chars not_dollar (ToString size1) = true ->
  all_chars not_dollar (ToString size2) = true ->
  (derive (stem +:+ ".jpg") size1 = derive (stem +:+ ".jpg") size2
   <-> ToString size1 = ToString size2) /\
  derive (stem +:+ ".jpg") size1 <> stem +:+ ".jpg".
Proof.
  intros H1 H2. rewrite !derive_plain by assumption. split; [split|].
  - intros H. apply String.app_inj in H.
    change (String "-" (ToString size1 +:+ ".jpg")
            = String "-" (ToString size2 +:+ ".jpg")) in H.
    injection H as H. apply append_inj_r in H. exact H.
  - intros ->. reflexivity.
  - intros H. apply String.app_inj in H. discriminate H.
Qed.

Lemma derive_injective_without_dollar_witness :
  (derive ("articles/123" +:+ ".jpg") (VStr "0300")
   = derive ("articles/123" +:+ ".jpg") (VNum (Int 300))
   <-> ToString (VStr "0300") = ToString (VNum (Int 300))) /\
  derive ("articles/123" +:+ ".jpg") (VStr "0300") <> "articles/123" +:+ ".jpg".
Proof.
  apply (derive_injective_without_dollar "articles/123" (VStr "0300") (VNum (Int 300)));
    reflexivity.
Defined.

(** X11: a [$] in the size is read by [replace] as a replacement pattern,
    so distinct sizes can give one key: after any text without [$], the
    sizes ending in [$$] and in [$] both give the key ending in [$.jpg]. *)
Theorem derive_collides_on_dollar (stem prefix : string) :
  all_chars not_dollar prefix = true ->
  derive (stem +:+ ".jpg") (VStr (prefix +:+ "$$"))
    = stem +:+ "-" +:+ prefix +:+ "$.jpg" /\
  derive (stem +:+ ".jpg") (VStr (prefix +:+ "$"))
    = stem +:+ "-" +:+ prefix +:+ "$.jpg" /\
  prefix +:+ "$$" <> prefix +:+ "$".
Proof.
  intros Hp. unfold derive, replace_jpg_end. rewrite match_jpg_end_app.
  cbn [ToString].
  change ("-" +:+ ?x) with (String "-" x).
  cbn [get_substitution Ascii.eqb Bool.eqb].
  rewrite !append_assoc.
  change ("$$" +:+ ".jpg") with "$$.jpg". change ("$" +:+ ".jpg") with "$.jpg".
  rewrite !get_substitution_app by exact Hp.
  split; [reflexivity | split; [reflexivity|]].
  intros H. apply String.app_inj in H. discriminate H.
Qed.

Lemma derive_collides_on_dollar_witness :
  derive ("articles/123" +:+ ".jpg") (VStr ("300" +:+ "$$"))
    = "articles/123" +:+ "-" +:+ "300" +:+ "$.jpg" /\
  derive ("articles/123" +:+ ".jpg") (VStr ("300" +:+ "$"))
    = "articles/123" +:+ "-" +:+ "300" +:+ "$.jpg" /\
  "300" +:+ "$$" <> "300" +:+ "$".
Proof.
  apply (derive_collides_on_dollar "articles/123" "300"). reflexivity.
Defined.

End ImageExtras.

(** ** Further properties of the listing function *)

Section ListingExtras.
Import JS Node Listing.
#[local] Open Scope Z_scope.

Lemma split_at_sep sep s t :
  all_chars (fun c => negb (Ascii.eqb c sep)) s = true ->
  split sep (s +:+ String sep t) = s :: split sep t.
Proof.
  induction s as [|c s IH].
  - intros _. change ("" +:+ String sep t) with (String sep t).
    cbn [split]. rewrite Ascii.eqb_refl. reflexivity.
  - simpl. intros [Hc Hs]%andb_prop. apply negb_true_iff in Hc.
    change (String c s +:+ String sep t) with (String c (s +:+ String sep t)).
    cbn [split]. rewrite Hc, (IH Hs). reflexivity.
Qed.

Lemma encode_utf8_nonempty text :
  all_chars is_ascii text = true -> text <> "" -> Base64.encode (utf8 text) <> "".
Proof.
  destruct text as [|c text]; [congruence|].
  simpl. intros [Hc _]%andb_prop _. unfold is_ascii in Hc. rewrite Hc.
  destruct (utf8 text) as [|b [|b2 l]]; discriminate.
Qed.

(** Indices inside the sequence: the range is a slice. *)
Lemma range_slice {A} (l : list A) s e :
  0 <= s -> s <= e ->
  range l s e = take (Z.to_nat (e - s + 1)) (drop (Z.to_nat s) l).
Proof.
  intros Hs He. unfold range. cbv zeta.
  replace (s <? 0) with false by lia. cbv iota.
  replace (e <? 0) with false by lia. cbv iota.
  replace (s <? 0) with false by lia. cbv iota.
  replace (e <? s) with false by lia. cbn [orb].
  destruct (Z.of_nat (length l) <=? s) eqn:Hlen.
  - rewrite drop_ge by lia. destruct (Z.to_nat (e - s + 1)); reflexivity.
  - destruct (Z.of_nat (length l) <=? e) eqn:Hend; [|reflexivity].
    rewrite !take_ge; [reflexivity | |]; rewrite length_drop; lia.
Qed.

(** From the head to index -1, the last one: the whole sequence. *)
Lemma whole_range {A} (l : list A) : range l 0 (-1) = l.
Proof.
  unfold range. cbv zeta.
  change (0 <? 0) with false. change (-1 <? 0) with true. cbv iota.
  change (0 <? 0) with false. cbv iota.
  destruct l as [|x l]; [reflexivity|].
  set (len := Z.of_nat (length (x :: l))).
  assert (Hlen : 1 <= len) by (subst len; simpl; lia).
  replace (len + -1 <? 0) with false by lia.
  replace (len <=? 0) with false by lia.
  replace (len <=? len + -1) with false by lia.
  cbn [orb]. replace (len + -1 - 0 + 1) with len by lia.
  subst len. rewrite Nat2Z.id. apply firstn_all.
Qed.

(** X12: a token made by [_encodeNextToken] for any kind written in ASCII
    without a colon and any index that is a safe integer decodes, by
    [_decodeNextToken], to that index; the kind is not read back. *)
Theorem token_round_trip (type : string) (nextIndex : Z) :
  isSafeInteger nextIndex = true ->
  all_chars is_ascii type = true ->
  all_chars not_colon type = true ->
  _decodeNextToken (VStr (_encodeNextToken type (Int nextIndex))) = Normal (Int nextIndex).
Proof.
  intros _ Hascii Hcolon.
  unfold _decodeNextToken, _encodeNextToken. cbn [Buffer_from_base64 string_of_num].
  rewrite decode_encode.
  rewrite toString_ascii_utf8.
  2:{ rewrite !all_chars_app, Hascii. simpl.
      apply string_of_Z_chars; [reflexivity | apply digit_is_ascii]. }
  change (":" +:+ string_of_Z nextIndex) with (String ":" (string_of_Z nextIndex)).
  rewrite split_at_sep by exact Hcolon.
  rewrite split_no_sep
    by (apply (string_of_Z_chars not_colon); [reflexivity | apply digit_not_colon]).
  cbn [index nth_error]. rewrite parseInt_string_of_Z. reflexivity.
Qed.

Lemma token_round_trip_witness :
  _decodeNextToken (VStr (_encodeNextToken "Blog" (Int (-7)))) = Normal (Int (-7)).
Proof. apply (token_round_trip "Blog" (-7)); reflexivity. Defined.

(** X13: a nextToken that is the base64 of a non-empty ASCII text without
    a colon decodes to NaN, and the latest and popular listings then
    answer with the error object "An error has occurred retrieving
    articles" (Redis refuses the range), not with a page and not with a
    throw. *)
Theorem token_without_colon_fails
    (R : redis) (act : string) (lim : arg Z) (text : string) :
  text <> "" ->
  all_chars is_ascii text = true ->
  all_chars not_colon text = true ->
  exec_fault R = None ->
  act = "latestArticles" \/ act = "popularArticles" ->
  _decodeNextToken (VStr (Base64.encode (utf8 text))) = Normal NaN /\
  handler R (mkEvent act lim (Given (Base64.encode (utf8 text))))
  = Normal (Failure (VStr "An error has occurred retrieving articles")).
Proof.
  intros Hne Hascii Hcolon HR Hact.
  assert (Hnan : _decodeNextToken (VStr (Base64.encode (utf8 text))) = Normal NaN).
  { unfold _decodeNextToken. cbn [Buffer_from_base64].
    rewrite decode_encode, toString_ascii_utf8 by exact Hascii.
    rewrite split_no_sep by exact Hcolon. reflexivity. }
  split; [exact Hnan|].
  pose proof (encode_utf8_nonempty text Hascii Hne) as Htok.
  unfold handler. cbn [nextToken value_of_arg action limit].
  assert (Hstart : start_of (VStr (Base64.encode (utf8 text))) = Normal NaN).
  { rewrite <- Hnan. destruct (Base64.encode (utf8 text)); [congruence | reflexivity]. }
  rewrite Hstart.
  destruct Hact as [-> | ->]; cbn;
    unfold getLatestArticles, getPopularArticles, exec; rewrite HR;
    destruct lim; reflexivity.
Qed.

Lemma token_without_colon_fails_witness :
  _decodeNextToken (VStr (Base64.encode (utf8 "page2"))) = Normal NaN /\
  handler three_articles (mkEvent "latestArticles" Absent (Given (Base64.encode (utf8 "page2"))))
  = Normal (Failure (VStr "An error has occurred retrieving articles")).
Proof.
  apply (token_without_colon_fails three_articles "latestArticles" Absent "page2");
    [discriminate | reflexivity | reflexivity | reflexivity | left; reflexivity].
Defined.

(** X14: the cursor moves forward and stops: when a listing asked for
    [limit >= 1] items, with [start], [limit] and [start + limit] safe
    integers, answers with a nextToken that is not empty, the token
    decodes to an index above [start] and at most 50. *)
Theorem next_page_advances
    (R : redis) (start limit : Z) (ids : list string) (tok : string) :
  isSafeInteger start = true ->
  isSafeInteger limit = true ->
  isSafeInteger (start + limit) = true ->
  1 <= limit ->
  getLatestArticles R (Int start) (Int limit) = Normal (ArticleList ids tok)
  \/ getPopularArticles R (Int start) (Int limit) = Normal (ArticleList ids tok) ->
  tok <> "" ->
  exists next, _decodeNextToken (VStr tok) = Normal (Int next)
               /\ start < next /\ next <= 50.
Proof.
  intros _ _ _ Hlimit H Htok.
  assert (Hshape : exists len,
    tok = (if (start + limit - 1 <? Z.min len 50) && negb (start + limit - 1 + 1 =? 0)
           then _encodeNextToken "Article" (Int (start + limit - 1 + 1)) else "")).
  { destruct H as [H|H].
    - destruct (getLatestArticles_ok R _ _ _ _ _ eq_refl H)
        as (s & l & [= <-] & [= <-] & _ & Ht). eauto.
    - destruct (getPopularArticles_ok R _ _ _ _ _ eq_refl H)
        as (s & l & [= <-] & [= <-] & _ & Ht). eauto. }
  destruct Hshape as (len & ->).
  destruct ((start + limit - 1 <? Z.min len 50) && negb (start + limit - 1 + 1 =? 0))
    eqn:Hcond; [|congruence].
  exists (start + limit - 1 + 1). split; [apply decode_encode_token | lia].
Qed.

Lemma next_page_advances_witness :
  exists next, _decodeNextToken (VStr "QXJ0aWNsZToy") = Normal (Int next)
               /\ 0 < next /\ next <= 50.
Proof.
  apply (next_page_advances three_articles 0 2 ["a"; "b"] "QXJ0aWNsZToy").
  - reflexivity.
  - reflexivity.
  - reflexivity.
  - lia.
  - left. vm_compute. reflexivity.
  - discriminate.
Defined.

(** X15: a page that ends exactly on the last item of a list of at most 50
    still carries a nextToken (line 176 compares the length with the last
    index, not with the number of items served), and the page that token
    asks for is empty and carries none. *)
Theorem full_last_page_has_empty_successor (R : redis) (start limit : Z) :
  0 <= start -> 1 <= limit ->
  exec_fault R = None ->
  Z.of_nat (List.length (latest R)) = start + limit ->
  start + limit <= 50 ->
  getLatestArticles R (Int start) (Int limit)
    = Normal (ArticleList (drop (Z.to_nat start) (latest R))
                (_encodeNextToken "Article" (Int (start + limit)))) /\
  _encodeNextToken "Article" (Int (start + limit)) <> "" /\
  getLatestArticles R (Int (start + limit)) (Int limit) = Normal (ArticleList [] "").
Proof.
  intros Hs Hl HR Hlen Hcap.
  unfold getLatestArticles, lrange, llen, exec. rewrite HR.
  cbn [add sub]. unfold range_reply. rewrite !redis_integer_ok by lia.
  rewrite !returnArticleList_token.
  rewrite !range_slice by lia.
  replace (start + limit - 1 <? Z.min (Z.of_nat (length (latest R))) 50) with true by lia.
  replace (start + limit - 1 + 1 =? 0) with false by lia.
  replace (start + limit + limit - 1 <? Z.min (Z.of_nat (length (latest R))) 50)
    with false by lia.
  cbn [andb negb].
  replace (start + limit - 1 + 1) with (start + limit) by lia.
  split; [|split].
  - do 2 f_equal. apply take_ge. rewrite length_drop. lia.
  - apply token_nonempty.
  - do 2 f_equal. rewrite drop_ge by lia. apply take_nil.
Qed.

Lemma full_last_page_has_empty_successor_witness :
  getLatestArticles three_articles (Int 1) (Int 2)
    = Normal (ArticleList (drop (Z.to_nat 1) (latest three_articles))
                (_encodeNextToken "Article" (Int (1 + 2)))) /\
  _encodeNextToken "Article" (Int (1 + 2)) <> "" /\
  getLatestArticles three_articles (Int (1 + 2)) (Int 2) = Normal (ArticleList [] "").
Proof.
  apply (full_last_page_has_empty_successor three_articles 1 2);
    [lia | lia | reflexivity | reflexivity | lia].
Defined.

(** Two pages in a row against one page of both limits. *)
Ltac contiguous Hp1 Hp2 :=
  unfold getLatestArticles, getPopularArticles, lrange, llen, zrevrange,
    zcount_from_0, exec in *;
  destruct (exec_fault _) as [e|];
  [ destruct (error_response_not_list _ _ _ Hp1) | ];
  cbn [add sub] in *; unfold range_reply in *;
  repeat match goal with
         | H : context [redis_integer (Int ?z)] |- _ =>
             let Hz := fresh "Hz" in
             destruct (redis_integer (Int z)) eqn:Hz; [|discriminate H];
             pose proof (redis_integer_bounds _ _ Hz);
             apply redis_integer_Int in Hz; subst
         end;
  rewrite !redis_integer_ok by lia;
  rewrite returnArticleList_token in *;
  injection Hp1 as <- _; injection Hp2 as <- <-;
  match goal with
  | |- context [?s + (?a + ?b) - 1] =>
      replace (s + (a + b) - 1) with (s + a + b - 1) by lia;
      do 2 f_equal;
      rewrite !range_slice by lia;
      replace (Z.to_nat (s + a + b - 1 - s + 1))
        with (Z.to_nat a + Z.to_nat b)%nat by lia;
      rewrite <- take_take_drop, drop_drop;
      replace (Z.to_nat (s + a - 1 - s + 1)) with (Z.to_nat a) by lia;
      replace (Z.to_nat (s + a + b - 1 - (s + a) + 1)) with (Z.to_nat b) by lia;
      replace (Z.to_nat (s + a)) with (Z.to_nat s + Z.to_nat a)%nat by lia;
      reflexivity
  end.

(** X16: pages compose: for [start >= 0], a page of [limit1 >= 1] items
    followed by the page of [limit2 >= 1] items that starts where the first
    ended hold, in order, the ids of the single page of [limit1 + limit2]
    items from [start], which carries the nextToken of the second page.
    This holds for the latest and for the popular listing. *)
Theorem pages_are_contiguous
    (listing : redis -> num -> num -> completion response)
    (R : redis) (start limit1 limit2 : Z) (ids1 ids2 : list string) (tok1 tok2 : string) :
  listing = getLatestArticles \/ listing = getPopularArticles ->
  0 <= start -> 1 <= limit1 -> 1 <= limit2 ->
  listing R (Int start) (Int limit1) = Normal (ArticleList ids1 tok1) ->
  listing R (Int (start + limit1)) (Int limit2) = Normal (ArticleList ids2 tok2) ->
  listing R (Int start) (Int (limit1 + limit2)) = Normal (ArticleList (ids1 ++ ids2) tok2).
Proof.
  intros [-> | ->] Hs H1 H2 Hp1 Hp2; contiguous Hp1 Hp2.
Qed.

Lemma pages_are_contiguous_witness :
  getPopularArticles three_articles (Int 0) (Int (1 + 2))
  = Normal (ArticleList (["c"] ++ ["a"; "b"]) "QXJ0aWNsZToz").
Proof.
  apply (pages_are_contiguous getPopularArticles three_articles 0 1 2
           ["c"] ["a"; "b"] "QXJ0aWNsZTox" "QXJ0aWNsZToz");
    [right; reflexivity | lia | lia | lia | vm_compute; reflexivity
    | vm_compute; reflexivity].
Defined.

(** X17: a first page asked with limit 0, or with limit [null], is not
    empty: the range runs from 0 to -1, the last index, so both listings
    answer with every stored id, and with no nextToken. *)
Theorem zero_or_null_limit_lists_everything (R : redis) (lim : arg Z) :
  exec_fault R = None ->
  lim = Given 0 \/ lim = Null ->
  handler R (mkEvent "latestArticles" lim (Given ""))
    = Normal (ArticleList (latest R) "") /\
  handler R (mkEvent "popularArticles" lim (Given ""))
    = Normal (ArticleList (map fst (popular R)) "").
Proof.
  intros HR Hlim.
  destruct Hlim as [-> | ->];
    unfold handler; cbn [nextToken value_of_arg start_of action limit number_of_limit];
    cbn [String.eqb Ascii.eqb Bool.eqb];
    unfold getLatestArticles, getPopularArticles, lrange, llen, zrevrange,
      zcount_from_0, exec;
    rewrite HR; cbn [add sub Z.add Z.sub Z.opp Z.pos_sub];
    unfold range_reply; rewrite !redis_integer_ok by lia;
    rewrite !returnArticleList_token, !whole_range;
    replace (-1 + 1 =? 0) with true by lia; rewrite !andb_false_r; split; reflexivity.
Qed.

Lemma zero_or_null_limit_lists_everything_witness :
  handler sixty_articles (mkEvent "latestArticles" Null (Given ""))
    = Normal (ArticleList (latest sixty_articles) "") /\
  handler sixty_articles (mkEvent "popularArticles" Null (Given ""))
    = Normal (ArticleList (map fst (popular sixty_articles)) "").
Proof.
  apply (zero_or_null_limit_lists_everything sixty_articles Null);
    [reflexivity | right; reflexivity].
Defined.

(** X18: when [pipeline.exec()] rejects with an Error, both listings
    return the object [{ error: message }] with the message of that
    Error, for every start and limit; they do not throw. *)
Theorem redis_failure_is_reported
    (R : redis) (start limit : num) (name message : string) :
  exec_fault R = Some (VError name message) ->
  getLatestArticles R start limit = Normal (Failure (VStr message)) /\
  getPopularArticles R start limit = Normal (Failure (VStr message)).
Proof.
  intros HR. unfold getLatestArticles, getPopularArticles, exec. rewrite HR.
  unfold error_response. cbn. split; reflexivity.
Qed.

Lemma redis_failure_is_reported_witness :
  getLatestArticles unreachable (Int 0) (Int 10)
    = Normal (Failure (VStr "Connection is closed.")) /\
  getPopularArticles unreachable (Int 0) (Int 10)
    = Normal (Failure (VStr "Connection is closed.")).
Proof.
  apply (redis_failure_is_reported unreachable (Int 0) (Int 10)
           "Error" "Connection is closed.").
  reflexivity.
Defined.

(** X19: the popular listing counts its length with [ZCOUNT key 0 +inf]:
    members whose score is below 0 are listed and not counted.  When every
    score is below 0, a page from [start >= 0] with [limit >= 1] holds the
    requested range of members and never a nextToken. *)
Theorem popular_token_counts_scores_from_0
    (R : redis) (start limit : Z) (ids : list string) (tok : string) :
  0 <= start -> 1 <= limit ->
  Forall (fun member => snd member < 0) (popular R) ->
  getPopularArticles R (Int start) (Int limit) = Normal (ArticleList ids tok) ->
  ids = range (map fst (popular R)) start (start + limit - 1) /\ tok = "".
Proof.
  intros Hs Hl Hneg H.
  assert (Hcount : zcount_from_0 R = Ok 0).
  { unfold zcount_from_0. do 2 f_equal.
    induction Hneg as [|m l Hm _ IH]; [reflexivity|].
    cbn [filter list_filter]. unfold filter in IH |- *. cbn.
    destruct (decide _) as [H0|H0]; [|exact IH].
    exfalso. apply Is_true_true in H0. lia. }
  destruct (getPopularArticles_ok R _ _ _ _ _ Hcount H)
    as (s & l & [= <-] & [= <-] & Hids & Htok).
  split; [exact Hids|]. rewrite Htok.
  replace (start + limit - 1 <? Z.min 0 50) with false by lia. reflexivity.
Qed.

Lemma popular_token_counts_scores_from_0_witness :
  ["x"] = range (map fst (popular below_zero)) 0 (0 + 1 - 1) /\ "" = "".
Proof.
  apply (popular_token_counts_scores_from_0 below_zero 0 1 ["x"] "").
  - lia.
  - lia.
  - repeat constructor.
  - vm_compute. reflexivity.
Defined.

End ListingExtras.
